(** * Merging MuJoCo model descriptions

    A shallow embedding of [mj_utils_merge_mujoco_models.cpp] from
    mc_mujoco: the attribute merger, the accumulating merge of the
    [size] counters, the namespace prefixer, the asset path resolver, the
    section mergers and the orchestrator [merge_mujoco_models].

    The XML tree is a first-order copy of what the code sees through
    pugixml handles: a node has a tag, an ordered list of attributes (the
    parser keeps duplicates, and every lookup returns the first match) and
    an ordered list of children.  A null handle is [None].  Mutation
    through a handle becomes a function from the old node to the new one;
    diagnostics are collected in a list next to it. *)

From Stdlib Require Import ZArith String Ascii Lia.
From stdpp Require Import base list strings.

Local Open Scope string_scope.
Local Open Scope list_scope.
Local Open Scope Z_scope.

(** ** The tree document *)

Definition xml_attribute : Type := string * string.

#[warnings="-register-all"]
Inductive xml_node : Type :=
  Node { name : string;
         attributes : list xml_attribute;
         children : list xml_node }.

(** [xml_node::attribute(name)]: the first attribute with that name. *)
Fixpoint attr_find (a : string) (l : list xml_attribute) : option string :=
  match l with
  | [] => None
  | (k, v) :: l' => if String.eqb k a then Some v else attr_find a l'
  end.

(** [xml_attribute::set_value] through the handle [attribute(name)]
    returned: the first attribute with that name is overwritten in place. *)
Fixpoint attr_set (a v : string) (l : list xml_attribute) : list xml_attribute :=
  match l with
  | [] => []
  | (k, w) :: l' =>
      if String.eqb k a then (k, v) :: l' else (k, w) :: attr_set a v l'
  end.

Definition attribute (n : xml_node) (a : string) : option string :=
  attr_find a (attributes n).

Definition set_value (n : xml_node) (a v : string) : xml_node :=
  Node (name n) (attr_set a v (attributes n)) (children n).

(** [append_attribute(a).set_value(v)]. *)
Definition append_attribute (n : xml_node) (a v : string) : xml_node :=
  Node (name n) (attributes n ++ [(a, v)]) (children n).

(** [xml_node::child(name)]: the first child with that tag. *)
Fixpoint find_child (nm : string) (l : list xml_node) : option (nat * xml_node) :=
  match l with
  | [] => None
  | c :: l' =>
      if String.eqb (name c) nm then Some (0%nat, c)
      else match find_child nm l' with
           | Some (i, d) => Some (S i, d)
           | None => None
           end
  end.

Definition child (n : xml_node) (nm : string) : option xml_node :=
  snd <$> find_child nm (children n).

(** [xml_node::children(name)]: all children with that tag, in order. *)
Definition children_named (n : xml_node) (nm : string) : list xml_node :=
  filter (fun c => name c = nm) (children n).

(** [append_copy(c)]: the deep copy of [c] becomes the last child. *)
Definition append_copy (n c : xml_node) : xml_node :=
  Node (name n) (attributes n) (children n ++ [c]).

Definition append_child (n : xml_node) (nm : string) : xml_node :=
  append_copy n (Node nm [] []).

(** The methods above on a handle that may be null, as the code calls
    them on [root.child(...)] without a test. *)
Definition attribute_of (n : option xml_node) (a : string) : option string :=
  n ≫= fun x => attribute x a.

Definition attributes_of (n : option xml_node) : list xml_attribute :=
  from_option attributes [] n.

Definition children_of (n : option xml_node) : list xml_node :=
  from_option children [] n.

Definition children_named_of (n : option xml_node) (nm : string) : list xml_node :=
  from_option (fun x => children_named x nm) [] n.

Definition child_of (n : option xml_node) (nm : string) : option xml_node :=
  n ≫= fun x => child x nm.

(** ** Integers in attribute values *)

Module pugi.

Definition INT_MAX : Z := 2147483647.
Definition INT_MIN : Z := -2147483648.

(** C++ [int] addition, with the two's-complement wrap-around of the
    target written out. *)
Definition int_add (a b : Z) : Z :=
  (a + b - INT_MIN) mod 2 ^ 32 + INT_MIN.

Definition is_space (c : ascii) : bool :=
  let n := nat_of_ascii c in
  (n =? 9)%nat || (n =? 10)%nat || (n =? 13)%nat || (n =? 32)%nat.

Definition digit_of (c : ascii) : option Z :=
  let n := Z.of_nat (nat_of_ascii c) in
  if (48 <=? n) && (n <=? 57) then Some (n - 48) else None.

Definition hex_digit_of (c : ascii) : option Z :=
  let n := Z.of_nat (nat_of_ascii c) in
  if (48 <=? n) && (n <=? 57) then Some (n - 48)
  else if (97 <=? n) && (n <=? 102) then Some (n - 87)
  else if (65 <=? n) && (n <=? 70) then Some (n - 55)
  else None.

Fixpoint skip_space (s : string) : string :=
  match s with
  | String c r => if is_space c then skip_space r else s
  | EmptyString => s
  end.

(** The digit loop: it stops at the first character that is no digit. *)
Fixpoint digits_value (digit : ascii -> option Z) (base acc : Z) (s : string) : Z :=
  match s with
  | String c r =>
      match digit c with
      | Some d => digits_value digit base (acc * base + d) r
      | None => acc
      end
  | EmptyString => acc
  end.

Definition is_hex_prefix (s : string) : bool :=
  match s with
  | String "0" (String c _) => Ascii.eqb c "x" || Ascii.eqb c "X"
  | _ => false
  end.

(** Modelled from the spec: pugixml's [xml_attribute::as_int] is not
    under src/.  The spec speaks of the integer value of a counter; this
    is the library's conversion: leading white space, an optional sign,
    decimal digits (hexadecimal after [0x]), reading stops at the first
    other character, and the result saturates at the bounds of [int]. *)
Definition as_int (s : string) : Z :=
  let s := skip_space s in
  let negative := match s with String "-" _ => true | _ => false end in
  let s := match s with
           | String "-" r => r
           | String "+" r => r
           | _ => s
           end in
  let v := if is_hex_prefix s
           then digits_value hex_digit_of 16 0 (String.substring 2 (String.length s) s)
           else digits_value digit_of 10 0 s in
  if negative then (if v >? - INT_MIN then INT_MIN else - v)
  else (if v >? INT_MAX then INT_MAX else v).

Definition digit_char (d : Z) : ascii := ascii_of_nat (Z.to_nat (48 + d)).

(** The digits of [n], written in front of [acc] from the last one on. *)
Fixpoint utoa (fuel : nat) (n : Z) (acc : string) : string :=
  let acc' := String (digit_char (n mod 10)) acc in
  match fuel with
  | O => acc'
  | S f => if n / 10 =? 0 then acc' else utoa f (n / 10) acc'
  end.

(** Modelled from the spec: pugixml's [xml_attribute::set_value(int)] is
    not under src/.  The attribute receives the decimal text of the
    integer, with a minus sign when it is negative. *)
Definition int_to_string (z : Z) : string :=
  if z <? 0 then String "-" (utoa 10 (- z) "") else utoa 10 z "".

End pugi.

(** ** Paths *)

Module bfs.

(** boost::filesystem is not under src/.  The spec needs a test for
    absolute paths, the containing directory of a file, the join of a
    directory with a relative path and the resolution of a relative path;
    below are the library's functions for them on a POSIX system, with
    paths as strings and [cwd] for [current_path()]. *)

(** Modelled from the spec: [path::is_absolute()] of boost::filesystem,
    which is not under src/.  A path is absolute when it starts at the
    root directory. *)
Definition is_absolute (p : string) : bool :=
  match p with
  | String "/" _ => true
  | _ => false
  end.

Definition is_sep (c : ascii) : bool := Ascii.eqb c "/".

Fixpoint drop_while (f : ascii -> bool) (l : list ascii) : list ascii :=
  match l with
  | c :: l' => if f c then drop_while f l' else l
  | [] => []
  end.

(** Modelled from the spec: [path::parent_path()] of boost::filesystem,
    which is not under src/, for the containing directory of a file.  The
    file name and the separators in front of it are removed; the root
    directory is its own parent. *)
Definition parent_path (p : string) : string :=
  let no_name := drop_while (fun c => negb (is_sep c)) (rev (list_ascii_of_string p)) in
  match drop_while is_sep no_name with
  | [] => match no_name with [] => "" | _ => "/" end
  | dir => string_of_list_ascii (rev dir)
  end.

Definition ends_with_sep (p : string) : bool :=
  match rev (list_ascii_of_string p) with
  | c :: _ => is_sep c
  | [] => false
  end.

(** Modelled from the spec: [operator/] of boost::filesystem, which is
    not under src/, for the join of a directory and a relative path.  A
    separator is added unless one side brings it. *)
Definition append (p q : string) : string :=
  match p, q with
  | _, EmptyString => p
  | EmptyString, _ => q
  | _, _ => if ends_with_sep p || is_absolute q then p +:+ q else p +:+ "/" +:+ q
  end.

(** Modelled from the spec: [bfs::absolute] of boost::filesystem, which
    is not under src/.  A relative path is resolved against the current
    directory, an absolute one is returned as it is. *)
Definition absolute (cwd p : string) : string :=
  if is_absolute p then p else append cwd p.

End bfs.

Infix "</>" := bfs.append (at level 40, left associativity).

(** ** Edits of an output node

    Every merger receives a handle [out] on a node of the output tree,
    changes the node behind it and may log.  An [edit] maps the node to
    the changed node and the diagnostics of the call, in order. *)

Record diagnostic : Type :=
  Diagnostic { diag_node : string;
               diag_attr : string;
               diag_file : string;
               diag_value_in : string;
               diag_value_merged : string }.

Definition edit : Type := xml_node -> xml_node * list diagnostic.

Definition silent (f : xml_node -> xml_node) : edit := fun out => (f out, []).

Definition edit_seq (e1 e2 : edit) : edit :=
  fun out =>
    let '(out1, log1) := e1 out in
    let '(out2, log2) := e2 out1 in
    (out2, log1 ++ log2).

Infix ">>" := edit_seq (at level 62, right associativity).

(** A range-based [for] whose body edits [out]. *)
Fixpoint for_each {A : Type} (l : list A) (body : A -> edit) : edit :=
  match l with
  | [] => silent id
  | x :: l' => body x >> for_each l' body
  end.

(** An edit through the handle on the [i]-th child of [out]. *)
Definition at_child (i : nat) (e : edit) : edit :=
  fun out =>
    match children out !! i with
    | Some c =>
        let '(c', log) := e c in
        (Node (name out) (attributes out) (<[i := c']> (children out)), log)
    | None => (out, [])
    end.

(** The handle is the position of the child among the children of [out]. *)
Definition get_child_or_create (out : xml_node) (nm : string) : xml_node * nat :=
  match find_child nm (children out) with
  | Some (i, _) => (out, i)
  | None => (append_child out nm, length (children out))
  end.

(** [auto c = get_child_or_create(out, nm); merge(..., c);] *)
Definition in_child (nm : string) (e : edit) : edit :=
  fun out =>
    let '(out1, h) := get_child_or_create out nm in
    at_child h e out1.

(** ** The mergers *)

Definition size_attributes : list string :=
  ["njmax"; "nconmax"; "nstack"; "nuserdata"; "nkey";
   "nuser_body"; "nuser_jnt"; "nuser_geom"; "nuser_site"; "nuser_cam";
   "nuser_tendon"; "nuser_actuator"; "nuser_sensor"].

(** The body of the loop of [merge_mujoco_size] for one counter. *)
Definition merge_size_attr (in_ : option xml_node) (out : xml_node) (attr : string) : xml_node :=
  match attribute_of in_ attr with
  | None => out
  | Some v_in =>
      match attribute out attr with
      | Some v_out =>
          set_value out attr
            (pugi.int_to_string (pugi.int_add (pugi.as_int v_out) (pugi.as_int v_in)))
      | None => append_attribute out attr v_in
      end
  end.

Definition merge_mujoco_size (in_ : option xml_node) (out : xml_node) : xml_node :=
  foldl (merge_size_attr in_) out size_attributes.

(** The body of the loop of [merge_mujoco_node] for one source attribute. *)
Definition merge_attr (node fileIn : string) (exclude : list string)
    (attr : xml_attribute) : edit :=
  fun out =>
    if bool_decide (attr.1 ∈ exclude) then (out, [])
    else match attribute out attr.1 with
         | None => (append_attribute out attr.1 attr.2, [])
         | Some v_out =>
             if String.eqb v_out attr.2 then (out, [])
             else (out, [Diagnostic node attr.1 fileIn attr.2 v_out])
         end.

Definition merge_mujoco_node (node fileIn : string) (in_ : option xml_node)
    (exclude : list string) : edit :=
  for_each (attributes_of in_) (merge_attr node fileIn exclude).

Definition merge_mujoco_compiler (fileIn : string) (in_ : option xml_node) : edit :=
  merge_mujoco_node "compiler" fileIn in_ ["meshdir"; "texturedir"].

Definition merge_mujoco_option (fileIn : string) (in_ : option xml_node) : edit :=
  merge_mujoco_node "option" fileIn in_ [] >>
  match child_of in_ "flag" with
  | Some flag => in_child "flag" (merge_mujoco_node "option/flag" fileIn (Some flag) [])
  | None => silent id
  end.

Definition add_prefix (prefix : string) (n : xml_node) (attr : string) : xml_node :=
  match attribute n attr with
  | Some v => set_value n attr (prefix +:+ "_" +:+ v)
  | None => n
  end.

(** The first loop of [add_prefix_recursively] changes attributes of
    [out] only, so the second loop runs over the children [out] had. *)
Fixpoint add_prefix_recursively (prefix : string) (attrs : list string)
    (out : xml_node) : xml_node :=
  match out with
  | Node nm ats cs =>
      Node nm (attributes (foldl (add_prefix prefix) (Node nm ats cs) attrs))
        (map (add_prefix_recursively prefix attrs) cs)
  end.

(** In the mergers below a copy is appended with [append_copy] and then
    changed through the handle on it; here the changed copy is appended. *)
Definition merge_mujoco_default (fileIn : string) (in_ : option xml_node)
    (robot : string) : edit :=
  for_each (children_of in_) (fun c =>
    if String.eqb (name c) "default" then
      silent (fun out =>
        append_copy out
          (add_prefix_recursively robot ["class"; "material"; "hfield"; "mesh"; "target"] c))
    else
      in_child (name c) (merge_mujoco_node ("default/" +:+ name c) fileIn (Some c) [])).

Definition merge_mujoco_visual (fileIn : string) (in_ : option xml_node) : edit :=
  for_each (children_of in_) (fun c =>
    in_child (name c) (merge_mujoco_node ("visual/" +:+ name c) fileIn (Some c) [])).

Definition copy_and_add_prefix (in_ : option xml_node) (nm prefix : string)
    (attrs : list string) (out : xml_node) : xml_node :=
  foldl (fun out c => append_copy out (foldl (add_prefix prefix) c attrs))
    out (children_named_of in_ nm).

Section Assets.

(** [current_path()], against which [bfs::absolute] resolves. *)
Variable cwd : string.

Definition update_name (robot : string) (n : xml_node) : xml_node :=
  add_prefix robot n "name".

Definition update_file (dir : string) (n : xml_node) : xml_node :=
  match attribute n "file" with
  | Some v =>
      if bfs.is_absolute v then n
      else set_value n "file" (bfs.absolute cwd (dir </> v))
  | None => n
  end.

Definition copy_assets (in_ : option xml_node) (robot type dir : string)
    (out : xml_node) : xml_node :=
  foldl (fun out n => append_copy out (update_file dir (update_name robot n)))
    out (children_named_of in_ type).

Definition prefix_bones (robot : string) (s : xml_node) : xml_node :=
  Node (name s) (attributes s)
    (map (fun b => if String.eqb (name b) "bone" then add_prefix robot b "body" else b)
       (children s)).

Definition merge_mujoco_asset (in_ : option xml_node) (meshPath texturePath robot : string)
    (out : xml_node) : xml_node :=
  let out := foldl (fun out hf => append_copy out (update_name robot hf))
               out (children_named_of in_ "hfield") in
  let out := foldl (fun out s =>
                 append_copy out
                   (prefix_bones robot (update_file meshPath (update_name robot s))))
               out (children_named_of in_ "skin") in
  let out := foldl (fun out mat =>
                 append_copy out (add_prefix robot (update_name robot mat) "texture"))
               out (children_named_of in_ "material") in
  let out := copy_assets in_ robot "texture" texturePath out in
  copy_assets in_ robot "mesh" meshPath out.

Definition get_mujoco_path (xmlFile : string) (in_ : xml_node) (attr : string) : string :=
  let xmlPath := bfs.parent_path xmlFile in
  match attribute_of (child in_ "compiler") attr with
  | None => xmlPath
  | Some dir =>
      if bfs.is_absolute dir then dir
      else bfs.absolute cwd (xmlPath </> dir)
  end.

End Assets.

Definition merge_mujoco_contact (in_ : option xml_node) (robot : string)
    (out : xml_node) : xml_node :=
  let out := copy_and_add_prefix in_ "pair" robot ["name"; "class"; "geom1"; "geom2"] out in
  copy_and_add_prefix in_ "exclude" robot ["name"; "body1"; "body2"] out.

Definition merge_mujoco_actuator (in_ : option xml_node) (robot : string)
    (out : xml_node) : xml_node :=
  foldl (fun out c =>
      append_copy out
        (foldl (add_prefix robot) c
           ["name"; "class"; "joint"; "jointinparent"; "site"; "tendon";
            "cranksite"; "slidersite"]))
    out (children_of in_).

Definition merge_mujoco_sensor (in_ : option xml_node) (robot : string)
    (out : xml_node) : xml_node :=
  foldl (fun out c =>
      append_copy out
        (foldl (add_prefix robot) c
           ["name"; "site"; "joint"; "actuator"; "tendon"; "objname"; "body"]))
    out (children_of in_).

Definition worldbody_attrs : list string :=
  ["name"; "childclasss"; "class"; "material"; "hfield"; "mesh"; "target"].

Definition merge_mujoco_worldbody (in_ : option xml_node) (robot : string)
    (out : xml_node) : xml_node :=
  foldl (fun out c => append_copy out (add_prefix_recursively robot worldbody_attrs c))
    out (children_of in_).

(** A sequence of blocks [{ auto s = get_child_or_create(out, tag);
    merge(..., s); }], each on the section it names. *)
Definition run_blocks (bs : list (string * edit)) : edit :=
  for_each bs (fun block => in_child block.1 block.2).

(** ** The orchestrator *)

Inductive outcome (A : Type) : Type :=
  | Ok (a : A)
  | Throw (msg : string)   (* [error_and_throw<std::runtime_error>] *)
  | Undefined.             (* an index past the end of a vector *)

Arguments Ok {A} a.
Arguments Throw {A} msg.
Arguments Undefined {A}.

Definition section_tags : list string :=
  ["compiler"; "size"; "option"; "default"; "visual"; "asset"; "contact";
   "actuator"; "sensor"; "worldbody"].

(** What a call of [merge_mujoco_models] leaves behind: the conflict
    warnings logged, the file written (path and document) if any, and the
    value returned or the exception raised. *)
Record run : Type :=
  Run { diagnostics : list diagnostic;
        written : option (string * xml_node);
        returned : outcome string }.

Section Orchestrator.

Variable cwd : string.

(** [xml_document::load_file]: the document node of the file, or [None]
    when the file is missing or is no XML. *)
Variable load_file : string -> option xml_node.

(** The ten blocks of [merge_mujoco_model] in their order, on the root
    [root] of the source document: the section of the output tree and
    the merger that runs on it. *)
Definition section_mergers (robot xmlFile : string) (root : xml_node)
    : list (string * edit) :=
  [("compiler", merge_mujoco_compiler xmlFile (child root "compiler"));
   ("size", silent (merge_mujoco_size (child root "size")));
   ("option", merge_mujoco_option xmlFile (child root "option"));
   ("default", merge_mujoco_default xmlFile (child root "default") robot);
   ("visual", merge_mujoco_visual xmlFile (child root "visual"));
   ("asset",
     let meshPath := get_mujoco_path cwd xmlFile root "meshdir" in
     let texturePath := get_mujoco_path cwd xmlFile root "texturedir" in
     silent (merge_mujoco_asset cwd (child root "asset") meshPath texturePath robot));
   ("contact", silent (merge_mujoco_contact (child root "contact") robot));
   ("actuator", silent (merge_mujoco_actuator (child root "actuator") robot));
   ("sensor", silent (merge_mujoco_sensor (child root "sensor") robot));
   ("worldbody", silent (merge_mujoco_worldbody (child root "worldbody") robot))].

(** The first [k] blocks. *)
Definition merge_blocks (k : nat) (robot xmlFile : string) (root : xml_node) : edit :=
  run_blocks (take k (section_mergers robot xmlFile root)).

Definition merge_sections (robot xmlFile : string) (root : xml_node) : edit :=
  merge_blocks 10 robot xmlFile root.

Definition merge_mujoco_model (robot xmlFile : string) (out : xml_node)
    : outcome (xml_node * list diagnostic) :=
  match load_file xmlFile with
  | None => Throw ("Failed to load " +:+ xmlFile)
  | Some doc =>
      match child doc "mujoco" with
      | None => Throw ("No mujoco root node in " +:+ xmlFile)
      | Some root => Ok (merge_sections robot xmlFile root out)
      end
  end.

(** The loop [for(i = 0; i < robots.size(); ++i)] started at some [i]:
    [robots] and [xmlFiles] are what is left of the two vectors from
    [i] on, so [xmlFiles[i]] is past the end when [xmlFiles] is empty. *)
Fixpoint merge_loop (robots xmlFiles : list string) (out : xml_node)
    (log : list diagnostic) : list diagnostic * outcome xml_node :=
  match robots with
  | [] => (log, Ok out)
  | robot :: robots' =>
      match xmlFiles with
      | [] => (log, Undefined)
      | xmlFile :: xmlFiles' =>
          match merge_mujoco_model robot xmlFile out with
          | Ok (out', log') => merge_loop robots' xmlFiles' out' (log ++ log')
          | Throw msg => (log, Throw msg)
          | Undefined => (log, Undefined)
          end
      end
  end.

Definition outFile : string := "/tmp/mc_mujoco.xml".

Definition new_root : xml_node := Node "mujoco" [("model", "mc_mujoco")] [].

Definition merge_mujoco_models (robots xmlFiles : list string) : run :=
  match xmlFiles with
  | [only] => Run [] None (Ok only)
  | _ =>
      match merge_loop robots xmlFiles new_root [] with
      | (log, Ok out) => Run log (Some (outFile, Node "" [] [out])) (Ok outFile)
      | (log, Throw msg) => Run log None (Throw msg)
      | (log, Undefined) => Run log None Undefined
      end
  end.

End Orchestrator.

(** ** Reading the claims

    The accumulation policy in the words of the specification: a counter
    absent from the target is copied, a counter present on both sides
    becomes their integer sum. *)
Definition accumulate (v_out v_in : option string) : option string :=
  match v_in, v_out with
  | None, _ => v_out
  | Some i, None => Some i
  | Some i, Some o =>
      Some (pugi.int_to_string (pugi.int_add (pugi.as_int o) (pugi.as_int i)))
  end.

(** The first-wins policy in the words of the specification. *)
Definition first_wins (v_out v_in : option string) : option string :=
  match v_out with
  | Some o => Some o
  | None => v_in
  end.

(** The conflict warning for one source attribute against the value the
    target holds. *)
Definition conflict (node fileIn : string) (exclude : list string) (out : xml_node)
    (attr : xml_attribute) : option diagnostic :=
  if bool_decide (attr.1 ∈ exclude) then None
  else match attribute out attr.1 with
       | Some w => if String.eqb w attr.2 then None
                   else Some (Diagnostic node attr.1 fileIn attr.2 w)
       | None => None
       end.

(** A string the sign and radix tests of [as_int] pass over: it starts
    with a digit, and not with the hexadecimal prefix. *)
Definition plain_decimal (s : string) : Prop :=
  pugi.skip_space s = s /\
  pugi.is_hex_prefix s = false /\
  match s with
  | String "-" r => r
  | String "+" r => r
  | _ => s
  end = s /\
  match s with String "-" _ => true | _ => false end = false.

Definition keeps_name (e : edit) : Prop := forall n, name (e n).1 = name n.

Definition fresh (nm : string) : xml_node := Node nm [] [].

(** The node behind the handle [get_child_or_create(out, nm)]. *)
Definition section_of (out : xml_node) (nm : string) : xml_node :=
  default (fresh nm) (child out nm).

Definition add_name (names : list string) (nm : string) : list string :=
  if decide (nm ∈ names) then names else names ++ [nm].

Definition root_of (load_file : string -> option xml_node) (xmlFile : string)
    : option xml_node :=
  load_file xmlFile ≫= fun doc => child doc "mujoco".

Definition error_message (load_file : string -> option xml_node) (xmlFile : string)
    : string :=
  match load_file xmlFile with
  | None => "Failed to load " +:+ xmlFile
  | Some _ => "No mujoco root node in " +:+ xmlFile
  end.

(** The value of attribute [a] on section [sec] below a root. *)
Definition section_attribute (root : xml_node) (sec a : string) : option string :=
  attribute_of (child root sec) a.

(** The same in a written document. *)
Definition merged_attribute (doc : xml_node) (sec a : string) : option string :=
  child doc "mujoco" ≫= fun root => section_attribute root sec a.

(** What entity [xmlFile] declares for attribute [a] of section [sec]. *)
Definition declared (load_file : string -> option xml_node) (sec a xmlFile : string)
    : option string :=
  root_of load_file xmlFile ≫= fun root => section_attribute root sec a.

Definition prefixed (prefix v : string) : string := prefix +:+ "_" +:+ v.





(** Two small source documents and a file system that holds them. *)
Definition sample_a : xml_node :=
  Node "" [] [Node "mujoco" [("model", "a")]
    [Node "compiler" [("angle", "radian"); ("meshdir", "meshes")] [];
     Node "size" [("njmax", "10")] [];
     Node "option" [("timestep", "0.001")] [];
     Node "asset" []
       [Node "hfield" [("name", "terrain"); ("file", "terrain.png")] [];
        Node "material" [("name", "steel"); ("file", "steel.png")] [];
        Node "mesh" [("name", "link"); ("file", "link.stl")] []];
     Node "worldbody" []
       [Node "body" [("name", "arm"); ("childclass", "arm_class")]
          [Node "joint" [("name", "j1")] [];
           Node "geom" [("name", "g1"); ("class", "arm_class")] []]]]].

Definition sample_b : xml_node :=
  Node "" [] [Node "mujoco" [("model", "b")]
    [Node "size" [("njmax", "5")] [];
     Node "option" [("timestep", "0.002")] []]].

Definition sample_files (xmlFile : string) : option xml_node :=
  if String.eqb xmlFile "/opt/r1/a.xml" then Some sample_a
  else if String.eqb xmlFile "/opt/r2/b.xml" then Some sample_b
  else None.

(** ** Further notions for the properties *)

(** An attribute list with every value erased. *)
Definition keys (l : list xml_attribute) : list xml_attribute :=
  map (fun kv => (kv.1, "")) l.

(** The tree with every attribute value erased: what is left is the
    tags, the attribute names in their order and the nesting. *)
Fixpoint skeleton (n : xml_node) : xml_node :=
  match n with
  | Node nm ats cs => Node nm (keys ats) (map skeleton cs)
  end.

(** An identifier without the separator that [add_prefix] inserts. *)
Fixpoint no_underscore (s : string) : bool :=
  match s with
  | EmptyString => true
  | String c r => negb (Ascii.eqb c "_") && no_underscore r
  end.

(** [c'] is [c] with the first occurrence of every attribute of [attrs]
    prefixed with [robot] and an underscore, and nothing else changed. *)
Definition copied_with (robot : string) (attrs : list string) (c' c : xml_node) : Prop :=
  name c' = name c /\
  children c' = children c /\
  keys (attributes c') = keys (attributes c) /\
  forall b, attribute c' b =
            if bool_decide (b ∈ attrs) then prefixed robot <$> attribute c b
            else attribute c b.

(** [c'] is [c] with [name] prefixed and, at most, its [file] attribute
    rewritten: the tag, the attribute names and every other attribute
    are those of [c]. *)
Definition renamed_asset (robot : string) (c' c : xml_node) : Prop :=
  name c' = name c /\
  keys (attributes c') = keys (attributes c) /\
  attribute c' "name" = prefixed robot <$> attribute c "name" /\
  forall b, b <> "name" -> b <> "file" -> attribute c' b = attribute c b.

(** The children of a copied skin: a [bone] has its [body] prefixed, any
    other child is the child of the source. *)
Definition renamed_bone (robot : string) (b' b : xml_node) : Prop :=
  if String.eqb (name b) "bone" then copied_with robot ["body"] b' b else b' = b.

(** Every diagnostic an edit logs satisfies [P]. *)
Definition logs_only (P : diagnostic -> Prop) (e : edit) : Prop :=
  forall out, Forall P (e out).2.

(** The sections whose children are copies of source children. *)
Definition copy_sections : list string :=
  ["asset"; "contact"; "actuator"; "sensor"; "worldbody"].

(** What a warning of the merge can say: it is about the compiler or the
    option section, the flags, or a child of the default or of the visual
    section, and the two values it reports differ. *)
Definition conflict_warning (d : diagnostic) : Prop :=
  diag_value_in d <> diag_value_merged d /\
  (diag_node d = "compiler" \/ diag_node d = "option" \/ diag_node d = "option/flag" \/
   (exists t, diag_node d = "default/" +:+ t) \/
   (exists t, diag_node d = "visual/" +:+ t)).

(** A counter read as an [int], an absent counter counting for 0. *)
Definition counter_value (v : option string) : Z := from_option pugi.as_int 0 v.

(** The sum of what the listed files declare for counter [c]. *)
Definition declared_total (load_file : string -> option xml_node) (c : string)
    (xmlFiles : list string) : Z :=
  foldr (fun f total => counter_value (declared load_file "size" c f) + total) 0 xmlFiles.

(** ** Attributes merged under the first-wins rule

    The places of the output where [merge_mujoco_node] writes: an
    attribute of the compiler section, of the option section, of the
    [flag] child of the option section, and of the child with tag [t] of
    the default or of the visual section. *)
Inductive first_wins_place : Type :=
  | CompilerAttr (a : string)
  | OptionAttr (a : string)
  | FlagAttr (a : string)
  | DefaultAttr (t a : string)
  | VisualAttr (t a : string).

(** [meshdir] and [texturedir] are excluded from the compiler merge, and
    a nested [default] block is copied, not merged. *)
Definition merged_place (p : first_wins_place) : Prop :=
  match p with
  | CompilerAttr a => a <> "meshdir" /\ a <> "texturedir"
  | DefaultAttr t _ => t <> "default"
  | _ => True
  end.

(** The value the output root [out] holds at a place. *)
Definition merged_at (out : xml_node) (p : first_wins_place) : option string :=
  match p with
  | CompilerAttr a => section_attribute out "compiler" a
  | OptionAttr a => section_attribute out "option" a
  | FlagAttr a => attribute_of (child_of (child out "option") "flag") a
  | DefaultAttr t a => attribute_of (child_of (child out "default") t) a
  | VisualAttr t a => attribute_of (child_of (child out "visual") t) a
  end.

(** The value a source root declares for a place: for a child of the
    default or visual section, the value of the first child with that
    tag that has the attribute. *)
Definition declared_at (root : xml_node) (p : first_wins_place) : option string :=
  match p with
  | CompilerAttr a => section_attribute root "compiler" a
  | OptionAttr a => section_attribute root "option" a
  | FlagAttr a => attribute_of (child_of (child root "option") "flag") a
  | DefaultAttr t a =>
      foldl first_wins None
        ((fun c => attribute c a) <$> children_named_of (child root "default") t)
  | VisualAttr t a =>
      foldl first_wins None
        ((fun c => attribute c a) <$> children_named_of (child root "visual") t)
  end.

(** What the entity of file [xmlFile] declares for a place. *)
Definition declared_in (load_file : string -> option xml_node) (p : first_wins_place)
    (xmlFile : string) : option string :=
  root_of load_file xmlFile ≫= fun root => declared_at root p.

(** The value a written document holds at a place. *)
Definition written_at (doc : xml_node) (p : first_wins_place) : option string :=
  child doc "mujoco" ≫= fun out => merged_at out p.

(** * Properties *)

(** ** Library models on examples *)

Example as_int_plain : pugi.as_int "15" = 15.
Proof. reflexivity. Qed.

Example as_int_junk : pugi.as_int "  -12px" = -12 /\ pugi.as_int "abc" = 0 /\ pugi.as_int "0x1F" = 31.
Proof. repeat split. Qed.

Example as_int_saturates : pugi.as_int "99999999999" = pugi.INT_MAX.
Proof. reflexivity. Qed.

Example int_to_string_ex :
  pugi.int_to_string 15 = "15" /\ pugi.int_to_string (-2147483648) = "-2147483648" /\
  pugi.int_to_string 0 = "0".
Proof. repeat split. Qed.

Example parent_path_ex :
  bfs.parent_path "/opt/robots/r1/model.xml" = "/opt/robots/r1" /\
  bfs.parent_path "model.xml" = "" /\
  bfs.parent_path "/model.xml" = "/" /\
  bfs.parent_path "robots//model.xml" = "robots".
Proof. repeat split. Qed.

Example append_ex :
  "/opt/r1" </> "meshes" </> "link.stl" = "/opt/r1/meshes/link.stl" /\
  "/opt/r1/" </> "meshes" = "/opt/r1/meshes" /\ "" </> "meshes" = "meshes".
Proof. repeat split. Qed.

(** ** The merge of the two sample entities *)

Example sample_merge :
  merge_mujoco_models "/home/user" sample_files
    ["r1"; "r2"] ["/opt/r1/a.xml"; "/opt/r2/b.xml"] =
  Run [Diagnostic "option" "timestep" "/opt/r2/b.xml" "0.002" "0.001"]
    (Some
       ("/tmp/mc_mujoco.xml",
        Node "" []
          [Node "mujoco" [("model", "mc_mujoco")]
             [Node "compiler" [("angle", "radian")] [];
              Node "size" [("njmax", "15")] [];
              Node "option" [("timestep", "0.001")] [];
              Node "default" [] [];
              Node "visual" [] [];
              Node "asset" []
                [Node "hfield" [("name", "r1_terrain"); ("file", "terrain.png")] [];
                 Node "material" [("name", "r1_steel"); ("file", "steel.png")] [];
                 Node "mesh" [("name", "r1_link"); ("file", "/opt/r1/meshes/link.stl")] []];
              Node "contact" [] [];
              Node "actuator" [] [];
              Node "sensor" [] [];
              Node "worldbody" []
                [Node "body" [("name", "r1_arm"); ("childclass", "arm_class")]
                   [Node "joint" [("name", "r1_j1")] [];
                    Node "geom" [("name", "r1_g1"); ("class", "r1_arm_class")] []]]]]))
    (Ok "/tmp/mc_mujoco.xml").
Proof. by vm_compute. Qed.

Example sample_merge_fails :
  merge_mujoco_models "/home/user" sample_files
    ["r1"; "r2"; "r3"] ["/opt/r1/a.xml"; "/opt/missing.xml"; "/opt/r2/b.xml"] =
  Run [] None (Throw "Failed to load /opt/missing.xml").
Proof. by vm_compute. Qed.

Example sample_merge_short_files :
  returned (merge_mujoco_models "/home/user" sample_files ["r1"; "r2"] []) = Undefined.
Proof. by vm_compute. Qed.

(** ** Attribute lists *)

Lemma attr_find_app a l1 l2 :
  attr_find a (l1 ++ l2) = first_wins (attr_find a l1) (attr_find a l2).
Proof.
  induction l1 as [|[k v] l1 IH]; simpl.
  - by destruct (attr_find a l2).
  - by destruct (String.eqb k a).
Qed.

Lemma attr_find_set a b v l :
  attr_find b (attr_set a v l) =
  if String.eqb a b then (fun _ => v) <$> attr_find b l else attr_find b l.
Proof.
  induction l as [|[k w] l IH]; simpl.
  - by destruct (String.eqb a b).
  - destruct (String.eqb k a) eqn:Hka; simpl.
    + apply String.eqb_eq in Hka as ->.
      by destruct (String.eqb a b).
    + destruct (String.eqb k b) eqn:Hkb; [|done].
      apply String.eqb_eq in Hkb as ->.
      by rewrite String.eqb_sym, Hka.
Qed.

Lemma attribute_set_value_eq n a v w :
  attribute n a = Some w -> attribute (set_value n a v) a = Some v.
Proof.
  unfold attribute; simpl; intros H.
  by rewrite attr_find_set, String.eqb_refl, H.
Qed.

Lemma attribute_set_value_ne n a b v :
  a <> b -> attribute (set_value n a v) b = attribute n b.
Proof.
  unfold attribute; simpl; intros H.
  rewrite attr_find_set.
  by apply String.eqb_neq in H as ->.
Qed.

Lemma attribute_append_attribute n a b v :
  attribute (append_attribute n a v) b =
  first_wins (attribute n b) (if String.eqb a b then Some v else None).
Proof. unfold attribute; simpl. by rewrite attr_find_app. Qed.

(** ** The size counters *)

Lemma merge_size_attr_same in_ out a :
  attribute (merge_size_attr in_ out a) a = accumulate (attribute out a) (attribute_of in_ a).
Proof.
  unfold merge_size_attr, accumulate.
  destruct (attribute_of in_ a) as [i|]; [|done].
  destruct (attribute out a) as [o|] eqn:Ho.
  - by erewrite attribute_set_value_eq.
  - by rewrite attribute_append_attribute, Ho, String.eqb_refl.
Qed.

Lemma merge_size_attr_other in_ out a b :
  a <> b -> attribute (merge_size_attr in_ out a) b = attribute out b.
Proof.
  intros Hab. unfold merge_size_attr.
  destruct (attribute_of in_ a) as [i|]; [|done].
  destruct (attribute out a) as [o|].
  - by apply attribute_set_value_ne.
  - rewrite attribute_append_attribute.
    apply String.eqb_neq in Hab as ->.
    by destruct (attribute out b).
Qed.

Lemma merge_size_loop_other in_ l : forall out b,
  b ∉ l -> attribute (foldl (merge_size_attr in_) out l) b = attribute out b.
Proof.
  induction l as [|a l IH]; intros out b Hb; [done|].
  apply not_elem_of_cons in Hb as [Hne Hb].
  simpl. rewrite IH by done. by apply merge_size_attr_other.
Qed.

Lemma merge_size_loop_same in_ l : forall out a,
  NoDup l -> a ∈ l ->
  attribute (foldl (merge_size_attr in_) out l) a =
  accumulate (attribute out a) (attribute_of in_ a).
Proof.
  induction l as [|b l IH]; intros out a Hnd Ha.
  - by apply elem_of_nil in Ha.
  - apply NoDup_cons in Hnd as [Hb Hnd]. simpl.
    destruct (decide (a = b)) as [->|Hne].
    + rewrite merge_size_loop_other by done. apply merge_size_attr_same.
    + apply elem_of_cons in Ha as [?|Ha]; [done|].
      rewrite IH by done. by rewrite merge_size_attr_other.
Qed.

Lemma size_attributes_NoDup : NoDup size_attributes.
Proof. apply (bool_decide_unpack _). by vm_compute. Qed.

Lemma merge_mujoco_size_accumulates in_ out a :
  a ∈ size_attributes ->
  attribute (merge_mujoco_size in_ out) a =
  accumulate (attribute out a) (attribute_of in_ a).
Proof. apply merge_size_loop_same, size_attributes_NoDup. Qed.

Lemma int_add_exact a b :
  pugi.INT_MIN <= a + b <= pugi.INT_MAX -> pugi.int_add a b = a + b.
Proof.
  unfold pugi.int_add, pugi.INT_MIN, pugi.INT_MAX. intros H.
  rewrite Z.mod_small; lia.
Qed.

(** ** Decimal text of an [int] *)

Lemma int_add_range a b : pugi.INT_MIN <= pugi.int_add a b <= pugi.INT_MAX.
Proof.
  unfold pugi.int_add, pugi.INT_MIN, pugi.INT_MAX.
  pose proof (Z.mod_pos_bound (a + b - -2147483648) (2 ^ 32)). lia.
Qed.

Lemma int_add_comm a b : pugi.int_add a b = pugi.int_add b a.
Proof. unfold pugi.int_add. by rewrite (Z.add_comm a b). Qed.

Lemma int_add_assoc_swap a b c :
  pugi.int_add (pugi.int_add a b) c = pugi.int_add (pugi.int_add a c) b.
Proof.
  unfold pugi.int_add.
  set (m := pugi.INT_MIN). set (w := 2 ^ 32).
  replace ((a + b - m) mod w + m + c - m) with ((a + b - m) mod w + c) by lia.
  replace ((a + c - m) mod w + m + b - m) with ((a + c - m) mod w + b) by lia.
  rewrite !Zplus_mod_idemp_l.
  by replace (a + b - m + c) with (a + c - m + b) by lia.
Qed.

Lemma digit_cases d :
  0 <= d <= 9 ->
  d = 0 \/ d = 1 \/ d = 2 \/ d = 3 \/ d = 4 \/ d = 5 \/ d = 6 \/ d = 7 \/ d = 8 \/ d = 9.
Proof. lia. Qed.

Lemma mod10_digit n : 0 <= n mod 10 <= 9.
Proof. pose proof (Z.mod_pos_bound n 10). lia. Qed.

Ltac each_digit H :=
  apply digit_cases in H;
  repeat (destruct H as [H|H]); subst.

Lemma digit_of_digit_char d :
  0 <= d <= 9 -> pugi.digit_of (pugi.digit_char d) = Some d.
Proof. intros H. each_digit H; reflexivity. Qed.

Lemma plain_decimal_digit d r :
  0 <= d <= 9 ->
  match r with String c _ => is_Some (pugi.digit_of c) | EmptyString => True end ->
  plain_decimal (String (pugi.digit_char d) r).
Proof.
  intros H Hr. unfold plain_decimal.
  each_digit H; repeat split; try reflexivity.
  destruct r as [|c r]; [done|].
  destruct Hr as [x Hx]. cbn.
  destruct (Ascii.eqb c "x") eqn:E1; [apply Ascii.eqb_eq in E1 as ->; done|].
  destruct (Ascii.eqb c "X") eqn:E2; [apply Ascii.eqb_eq in E2 as ->; done|].
  done.
Qed.

Lemma utoa_head f : forall n acc,
  0 <= n ->
  match acc with String c _ => is_Some (pugi.digit_of c) | EmptyString => True end ->
  exists d r, 0 <= d <= 9 /\ pugi.utoa f n acc = String (pugi.digit_char d) r /\
    match r with String c _ => is_Some (pugi.digit_of c) | EmptyString => True end.
Proof.
  induction f as [|f IH]; intros n acc Hn Hacc; simpl.
  - exists (n mod 10), acc. split; [apply mod10_digit|done].
  - destruct (n / 10 =? 0) eqn:E.
    + exists (n mod 10), acc. split; [apply mod10_digit|done].
    + apply IH; [apply Z.div_pos; lia|].
      rewrite digit_of_digit_char; [done|apply mod10_digit].
Qed.

Lemma digits_value_utoa f : forall n acc,
  0 <= n < 10 ^ Z.of_nat (S f) ->
  exists k, 0 <= k /\ forall a,
    pugi.digits_value pugi.digit_of 10 a (pugi.utoa f n acc) =
    pugi.digits_value pugi.digit_of 10 (a * 10 ^ k + n) acc.
Proof.
  induction f as [|f IH]; intros n acc Hn.
  - exists 1. split; [lia|]. intros a. simpl.
    change (10 ^ Z.of_nat 1) with 10 in Hn.
    rewrite digit_of_digit_char by apply mod10_digit.
    rewrite Z.mod_small by lia. do 2 f_equal.
  - cbn [pugi.utoa]. destruct (n / 10 =? 0) eqn:E.
    + apply Z.eqb_eq in E.
      assert (n < 10) by (apply Z.div_small_iff in E; lia).
      exists 1. split; [lia|]. intros a. simpl.
      rewrite digit_of_digit_char by apply mod10_digit.
      rewrite Z.mod_small by lia. do 2 f_equal.
    + destruct (IH (n / 10) (String (pugi.digit_char (n mod 10)) acc)) as (k & Hk & IHk).
      { split; [apply Z.div_pos; lia|].
        apply Z.div_lt_upper_bound; [lia|].
        rewrite <- Z.pow_succ_r by lia. rewrite <- Nat2Z.inj_succ. apply Hn. }
      exists (k + 1). split; [lia|]. intros a.
      rewrite IHk. simpl.
      rewrite digit_of_digit_char by apply mod10_digit.
      f_equal. rewrite Z.pow_add_r by lia.
      pose proof (Z.div_mod n 10). lia.
Qed.

Lemma as_int_utoa n :
  0 <= n < 10 ^ 11 ->
  exists s, pugi.utoa 10 n "" = s /\ plain_decimal s /\
    pugi.digits_value pugi.digit_of 10 0 s = n.
Proof.
  intros Hn. eexists; split; [done|]. split.
  - destruct (utoa_head 10 n "") as (d & r & Hd & -> & Hr); [lia|done|].
    by apply plain_decimal_digit.
  - destruct (digits_value_utoa 10 n "") as (k & Hk & ->); [done|].
    simpl. lia.
Qed.

Lemma as_int_minus s :
  pugi.is_hex_prefix s = false ->
  pugi.as_int (String "-" s) =
  let v := pugi.digits_value pugi.digit_of 10 0 s in
  if v >? - pugi.INT_MIN then pugi.INT_MIN else - v.
Proof.
  intros H. unfold pugi.as_int.
  change (pugi.skip_space (String "-" s)) with (String "-" s).
  cbv iota beta zeta. by rewrite H.
Qed.

Lemma as_int_plain_decimal s :
  plain_decimal s ->
  pugi.as_int s =
  let v := pugi.digits_value pugi.digit_of 10 0 s in
  if v >? pugi.INT_MAX then pugi.INT_MAX else v.
Proof.
  intros (Hsp & Hhex & Hsign & Hnot). unfold pugi.as_int.
  by rewrite Hsp, Hsign, Hhex, Hnot.
Qed.

(** Reading back what [set_value(int)] wrote gives the same [int]. *)
Lemma as_int_int_to_string z :
  pugi.INT_MIN <= z <= pugi.INT_MAX -> pugi.as_int (pugi.int_to_string z) = z.
Proof.
  unfold pugi.INT_MIN, pugi.INT_MAX. intros Hz.
  unfold pugi.int_to_string. destruct (z <? 0) eqn:Hneg.
  - apply Z.ltb_lt in Hneg.
    destruct (as_int_utoa (- z)) as (s & Hs & (_ & Hhex & _ & _) & Hv); [lia|].
    rewrite Hs, as_int_minus by done. cbv zeta. rewrite Hv.
    unfold pugi.INT_MIN. destruct (- z >? - -2147483648) eqn:E; lia.
  - apply Z.ltb_ge in Hneg.
    destruct (as_int_utoa z) as (s & Hs & Hplain & Hv); [lia|].
    rewrite Hs, as_int_plain_decimal by done. cbv zeta. rewrite Hv.
    unfold pugi.INT_MAX. destruct (z >? 2147483647) eqn:E; lia.
Qed.

(** ** The attribute merger *)

Lemma edit_seq_eq (e1 e2 : edit) out :
  (e1 >> e2) out = ((e2 (e1 out).1).1, (e1 out).2 ++ (e2 (e1 out).1).2).
Proof.
  unfold edit_seq. destruct (e1 out) as [out1 log1]; simpl.
  by destruct (e2 out1).
Qed.

Lemma for_each_cons {A} (x : A) l body out :
  for_each (x :: l) body out =
  ((for_each l body (body x out).1).1, (body x out).2 ++ (for_each l body (body x out).1).2).
Proof. apply edit_seq_eq. Qed.

Lemma for_each_app {A} (l1 l2 : list A) body out :
  for_each (l1 ++ l2) body out =
  ((for_each l2 body (for_each l1 body out).1).1,
   (for_each l1 body out).2 ++ (for_each l2 body (for_each l1 body out).1).2).
Proof.
  revert out. induction l1 as [|x l1 IH]; intros out.
  - simpl. by destruct (for_each l2 body out).
  - rewrite <- app_comm_cons, !for_each_cons, IH. simpl. by rewrite app_assoc.
Qed.

Lemma merge_attr_present node fileIn exclude a v out w :
  a ∉ exclude -> attribute out a = Some w ->
  merge_attr node fileIn exclude (a, v) out =
  (out, if String.eqb w v then [] else [Diagnostic node a fileIn v w]).
Proof.
  intros Hex Hw. unfold merge_attr. simpl.
  rewrite bool_decide_eq_false_2, Hw by done.
  by destruct (String.eqb w v).
Qed.

Lemma merge_attr_keeps node fileIn exclude attr out b w :
  attribute out b = Some w ->
  attribute (merge_attr node fileIn exclude attr out).1 b = Some w.
Proof.
  intros Hb. unfold merge_attr.
  destruct (bool_decide (attr.1 ∈ exclude)); [done|].
  destruct (attribute out attr.1) as [v|].
  - by destruct (String.eqb v attr.2).
  - simpl. by rewrite attribute_append_attribute, Hb.
Qed.

Lemma merge_attr_log node fileIn exclude attr out :
  (merge_attr node fileIn exclude attr out).2 =
  option_list (conflict node fileIn exclude (merge_attr node fileIn exclude attr out).1 attr).
Proof.
  unfold merge_attr, conflict.
  destruct (bool_decide (attr.1 ∈ exclude)); [done|].
  destruct (attribute out attr.1) as [v|] eqn:Hv.
  - destruct (String.eqb v attr.2) eqn:E; simpl; by rewrite Hv, E.
  - simpl. rewrite attribute_append_attribute, Hv, String.eqb_refl. simpl.
    by rewrite String.eqb_refl.
Qed.

Lemma merge_attrs_keep node fileIn exclude l : forall out b w,
  attribute out b = Some w ->
  attribute (for_each l (merge_attr node fileIn exclude) out).1 b = Some w.
Proof.
  induction l as [|x l IH]; intros out b w Hb; [done|].
  rewrite for_each_cons. simpl. by apply IH, merge_attr_keeps.
Qed.

Lemma conflict_stable node fileIn exclude out out' attr :
  (forall w, attribute out attr.1 = Some w -> attribute out' attr.1 = Some w) ->
  is_Some (attribute out attr.1) \/ attr.1 ∈ exclude ->
  conflict node fileIn exclude out' attr = conflict node fileIn exclude out attr.
Proof.
  intros Hkeep Hsome. unfold conflict.
  destruct (bool_decide (attr.1 ∈ exclude)) eqn:Hex; [done|].
  destruct Hsome as [[w Hw]|Hin].
  - by rewrite (Hkeep w Hw), Hw.
  - by apply bool_decide_eq_false in Hex.
Qed.

Lemma merge_attr_settles node fileIn exclude attr out :
  is_Some (attribute (merge_attr node fileIn exclude attr out).1 attr.1) \/ attr.1 ∈ exclude.
Proof.
  unfold merge_attr.
  destruct (bool_decide (attr.1 ∈ exclude)) eqn:Hex.
  - right. by apply bool_decide_eq_true in Hex.
  - left. destruct (attribute out attr.1) as [v|] eqn:Hv.
    + destruct (String.eqb v attr.2); simpl; by rewrite Hv.
    + simpl. by rewrite attribute_append_attribute, Hv, String.eqb_refl.
Qed.

Lemma merge_attrs_log node fileIn exclude l : forall out,
  (for_each l (merge_attr node fileIn exclude) out).2 =
  omap (conflict node fileIn exclude (for_each l (merge_attr node fileIn exclude) out).1) l.
Proof.
  induction l as [|x l IH]; intros out; [done|].
  rewrite for_each_cons. cbn [fst snd omap].
  set (out1 := (merge_attr node fileIn exclude x out).1).
  rewrite IH, merge_attr_log. fold out1.
  change (list_omap _ _ ?f (x :: l)) with
    (match f x with Some y => y :: omap f l | None => omap f l end).
  rewrite (conflict_stable _ _ _ out1 (for_each l _ out1).1 x).
  - by destruct (conflict node fileIn exclude out1 x).
  - intros w. apply merge_attrs_keep.
  - apply merge_attr_settles.
Qed.

Lemma merge_attrs_first_wins node fileIn exclude l : forall out b,
  b ∉ exclude ->
  attribute (for_each l (merge_attr node fileIn exclude) out).1 b =
  first_wins (attribute out b) (attr_find b l).
Proof.
  induction l as [|[k v] l IH]; intros out b Hb.
  - simpl. by destruct (attribute out b).
  - rewrite for_each_cons. cbn [fst]. rewrite IH by done.
    unfold merge_attr. cbn [fst snd attr_find].
    destruct (String.eqb k b) eqn:Hkb.
    + apply String.eqb_eq in Hkb as ->.
      rewrite bool_decide_eq_false_2 by done.
      destruct (attribute out b) as [w|] eqn:Hw.
      * destruct (String.eqb w v); simpl; by rewrite Hw.
      * simpl. by rewrite attribute_append_attribute, Hw, String.eqb_refl.
    + destruct (bool_decide (k ∈ exclude)); [done|].
      destruct (attribute out k) as [w|] eqn:Hw.
      * by destruct (String.eqb w v).
      * simpl. rewrite attribute_append_attribute, Hkb.
        by destruct (attribute out b).
Qed.

(** ** Children and handles *)

Lemma find_child_Some nm l i c :
  find_child nm l = Some (i, c) -> l !! i = Some c /\ name c = nm.
Proof.
  revert i c. induction l as [|d l IH]; intros i c; simpl; [done|].
  destruct (String.eqb (name d) nm) eqn:E.
  - intros [= <- <-]. by apply String.eqb_eq in E.
  - destruct (find_child nm l) as [[j d']|]; [|done].
    intros [= <- <-]. by apply IH.
Qed.

Lemma find_child_None nm l :
  find_child nm l = None <-> nm ∉ map name l.
Proof.
  induction l as [|d l IH]; simpl.
  - split; [intros _; apply not_elem_of_nil|done].
  - rewrite not_elem_of_cons. destruct (String.eqb (name d) nm) eqn:E.
    + apply String.eqb_eq in E. split; [done|]. intros [? _]. by subst.
    + apply String.eqb_neq in E.
      destruct (find_child nm l) as [[j d']|].
      * split; [done|]. intros [_ H]. by apply IH in H.
      * split; [|done]. intros _. split; [done|]. by apply IH.
Qed.

Lemma find_child_app nm l c :
  find_child nm (l ++ [c]) =
  match find_child nm l with
  | Some r => Some r
  | None => if String.eqb (name c) nm then Some (length l, c) else None
  end.
Proof.
  induction l as [|d l IH]; simpl.
  - by destruct (String.eqb (name c) nm).
  - destruct (String.eqb (name d) nm); [done|].
    rewrite IH. destruct (find_child nm l) as [[j d']|]; [done|].
    by destruct (String.eqb (name c) nm).
Qed.

Lemma find_child_insert nm l i c c' :
  l !! i = Some c -> name c' = name c ->
  find_child nm (<[i := c']> l) =
  (fun r : nat * xml_node => (r.1, if decide (r.1 = i) then c' else r.2)) <$> find_child nm l.
Proof.
  revert i. induction l as [|d l IH]; intros i Hi Hname; [done|].
  destruct i as [|i]; simpl in *.
  - injection Hi as ->. rewrite Hname.
    destruct (String.eqb (name c) nm); [done|].
    destruct (find_child nm l) as [[j d']|]; [|done]. done.
  - destruct (String.eqb (name d) nm); [done|].
    rewrite (IH i) by done.
    destruct (find_child nm l) as [[j d']|]; [|done]. simpl.
    destruct (decide (j = i)), (decide (S j = S i)); congruence.
Qed.

Lemma name_section_of out nm : name (section_of out nm) = nm.
Proof.
  unfold section_of, child.
  destruct (find_child nm (children out)) as [[i c]|] eqn:E; [|done].
  by apply find_child_Some in E as [_ ?].
Qed.

Lemma in_child_found nm e out i c :
  find_child nm (children out) = Some (i, c) ->
  in_child nm e out =
  (Node (name out) (attributes out) (<[i := (e c).1]> (children out)), (e c).2).
Proof.
  intros E. unfold in_child, get_child_or_create. rewrite E.
  apply find_child_Some in E as [Hi _].
  unfold at_child. rewrite Hi. by destruct (e c).
Qed.

Lemma in_child_created nm e out :
  find_child nm (children out) = None ->
  in_child nm e out =
  (Node (name out) (attributes out) (children out ++ [(e (fresh nm)).1]), (e (fresh nm)).2).
Proof.
  intros E. unfold in_child, get_child_or_create. rewrite E.
  unfold at_child, append_child, append_copy. cbn [children name attributes].
  rewrite lookup_app_r, Nat.sub_diag by done. cbn [lookup list_lookup].
  fold (fresh nm). destruct (e (fresh nm)) as [c' log]. cbn [fst snd].
  do 2 f_equal.
  rewrite insert_app_r_alt, Nat.sub_diag by done. done.
Qed.

Lemma in_child_name nm e out : name (in_child nm e out).1 = name out.
Proof.
  destruct (find_child nm (children out)) as [[i c]|] eqn:E.
  - by erewrite in_child_found.
  - by rewrite in_child_created.
Qed.

Lemma in_child_attributes nm e out :
  attributes (in_child nm e out).1 = attributes out.
Proof.
  destruct (find_child nm (children out)) as [[i c]|] eqn:E.
  - by erewrite in_child_found.
  - by rewrite in_child_created.
Qed.

Lemma in_child_log nm e out :
  (in_child nm e out).2 = (e (section_of out nm)).2.
Proof.
  unfold section_of, child.
  destruct (find_child nm (children out)) as [[i c]|] eqn:E.
  - by erewrite in_child_found.
  - by rewrite in_child_created.
Qed.

Lemma in_child_same nm e out :
  keeps_name e ->
  child (in_child nm e out).1 nm = Some (e (section_of out nm)).1.
Proof.
  intros He. unfold section_of, child.
  destruct (find_child nm (children out)) as [[i c]|] eqn:E.
  - erewrite in_child_found by done. cbn [fst children].
    pose proof E as [Hi Hc]%find_child_Some.
    rewrite (find_child_insert nm _ i c) by done.
    rewrite E. simpl. by rewrite decide_True.
  - rewrite in_child_created by done. cbn [fst children].
    rewrite find_child_app, E, He. simpl. by rewrite String.eqb_refl.
Qed.

Lemma in_child_other nm nm' e out :
  keeps_name e -> nm <> nm' ->
  child (in_child nm e out).1 nm' = child out nm'.
Proof.
  intros He Hne. unfold child.
  destruct (find_child nm (children out)) as [[i c]|] eqn:E.
  - erewrite in_child_found by done. cbn [fst children].
    pose proof E as [Hi Hc]%find_child_Some.
    rewrite (find_child_insert nm' _ i c) by done.
    destruct (find_child nm' (children out)) as [[j d]|] eqn:E'; [|done].
    simpl. destruct (decide (j = i)) as [->|]; [|done].
    apply find_child_Some in E' as [Hj Hd]. congruence.
  - rewrite in_child_created by done. cbn [fst children].
    rewrite find_child_app, He. simpl.
    destruct (find_child nm' (children out)) as [[j d]|]; [done|].
    by apply String.eqb_neq in Hne as ->.
Qed.

Lemma in_child_names nm e out :
  keeps_name e ->
  map name (children (in_child nm e out).1) =
  if decide (nm ∈ map name (children out)) then map name (children out)
  else map name (children out) ++ [nm].
Proof.
  intros He.
  destruct (find_child nm (children out)) as [[i c]|] eqn:E.
  - erewrite in_child_found by done. cbn [fst children].
    rewrite decide_True.
    + pose proof E as [Hi Hc]%find_child_Some.
      rewrite list_fmap_insert, He.
      apply list_insert_id. by rewrite list_lookup_fmap, Hi.
    + destruct (decide (nm ∈ map name (children out))) as [|Hn]; [done|].
      apply find_child_None in Hn. congruence.
  - rewrite in_child_created by done. cbn [fst children].
    rewrite decide_False by by apply find_child_None.
    by rewrite map_app; simpl; rewrite He.
Qed.

(** ** Every merger leaves the tag of its node alone *)

Lemma keeps_name_silent f : (forall n, name (f n) = name n) -> keeps_name (silent f).
Proof. intros H n. apply H. Qed.

Lemma keeps_name_seq e1 e2 : keeps_name e1 -> keeps_name e2 -> keeps_name (e1 >> e2).
Proof. intros H1 H2 n. rewrite edit_seq_eq. simpl. by rewrite H2, H1. Qed.

Lemma keeps_name_for_each {A} (l : list A) body :
  (forall x, keeps_name (body x)) -> keeps_name (for_each l body).
Proof.
  intros H. induction l as [|x l IH]; [done|].
  simpl. by apply keeps_name_seq.
Qed.

Lemma keeps_name_in_child nm e : keeps_name (in_child nm e).
Proof. intros n. apply in_child_name. Qed.

Lemma keeps_name_merge_attr node fileIn exclude attr :
  keeps_name (merge_attr node fileIn exclude attr).
Proof.
  intros n. unfold merge_attr.
  destruct (bool_decide _); [done|].
  destruct (attribute n attr.1) as [v|]; [|done].
  by destruct (String.eqb v attr.2).
Qed.

Lemma keeps_name_merge_mujoco_node node fileIn in_ exclude :
  keeps_name (merge_mujoco_node node fileIn in_ exclude).
Proof. apply keeps_name_for_each. intros x. apply keeps_name_merge_attr. Qed.

Lemma name_foldl_append_copy {A} (f : A -> xml_node) l : forall out,
  name (foldl (fun out x => append_copy out (f x)) out l) = name out.
Proof. induction l as [|x l IH]; intros out; [done|]. simpl. by rewrite IH. Qed.

Lemma attributes_foldl_append_copy {A} (f : A -> xml_node) l : forall out,
  attributes (foldl (fun out x => append_copy out (f x)) out l) = attributes out.
Proof. induction l as [|x l IH]; intros out; [done|]. simpl. by rewrite IH. Qed.

Lemma children_foldl_append_copy {A} (f : A -> xml_node) l : forall out,
  children (foldl (fun out x => append_copy out (f x)) out l) = children out ++ map f l.
Proof.
  induction l as [|x l IH]; intros out; simpl.
  - by rewrite app_nil_r.
  - by rewrite IH; simpl; rewrite <- app_assoc.
Qed.

Lemma name_merge_size_attr in_ out a : name (merge_size_attr in_ out a) = name out.
Proof.
  unfold merge_size_attr. destruct (attribute_of in_ a); [|done].
  by destruct (attribute out a).
Qed.

Lemma name_merge_mujoco_size in_ out : name (merge_mujoco_size in_ out) = name out.
Proof.
  unfold merge_mujoco_size. generalize size_attributes as l. intros l. revert out.
  induction l as [|a l IH]; intros out; [done|].
  simpl. by rewrite IH, name_merge_size_attr.
Qed.

Lemma name_merge_mujoco_asset cwd in_ meshPath texturePath robot out :
  name (merge_mujoco_asset cwd in_ meshPath texturePath robot out) = name out.
Proof.
  unfold merge_mujoco_asset, copy_assets.
  by rewrite !name_foldl_append_copy.
Qed.

Lemma keeps_name_section_mergers cwd robot xmlFile root block :
  block ∈ section_mergers cwd robot xmlFile root -> keeps_name block.2.
Proof.
  unfold section_mergers. intros H.
  repeat (apply elem_of_cons in H as [->|H]); cbn [snd].
  - apply keeps_name_merge_mujoco_node.
  - apply keeps_name_silent, name_merge_mujoco_size.
  - apply keeps_name_seq; [apply keeps_name_merge_mujoco_node|].
    destruct (child_of _ _); [apply keeps_name_in_child|by apply keeps_name_silent].
  - apply keeps_name_for_each. intros c.
    destruct (String.eqb _ _); [by apply keeps_name_silent|apply keeps_name_in_child].
  - apply keeps_name_for_each. intros c. apply keeps_name_in_child.
  - apply keeps_name_silent. intros n. apply name_merge_mujoco_asset.
  - apply keeps_name_silent. intros n. unfold merge_mujoco_contact, copy_and_add_prefix.
    by rewrite !name_foldl_append_copy.
  - apply keeps_name_silent. intros n. apply name_foldl_append_copy.
  - apply keeps_name_silent. intros n. apply name_foldl_append_copy.
  - apply keeps_name_silent. intros n. apply name_foldl_append_copy.
  - by apply elem_of_nil in H.
Qed.

(** ** A sequence of blocks on distinct sections *)

Lemma run_blocks_names bs : forall out,
  Forall (fun block => keeps_name block.2) bs ->
  map name (children (run_blocks bs out).1) =
  foldl add_name (map name (children out)) bs.*1.
Proof.
  induction bs as [|b bs IH]; intros out Hbs; [done|].
  apply Forall_cons in Hbs as [Hb Hbs].
  unfold run_blocks in *. rewrite for_each_cons. cbn [fst].
  rewrite IH by done. simpl. f_equal. by apply in_child_names.
Qed.

Lemma run_blocks_other bs nm : forall out,
  Forall (fun block => keeps_name block.2) bs ->
  nm ∉ bs.*1 ->
  child (run_blocks bs out).1 nm = child out nm.
Proof.
  induction bs as [|b bs IH]; intros out Hbs Hnm; [done|].
  apply Forall_cons in Hbs as [Hb Hbs].
  simpl in Hnm. apply not_elem_of_cons in Hnm as [Hne Hnm].
  unfold run_blocks in *. rewrite for_each_cons. cbn [fst].
  rewrite IH by done. by apply in_child_other.
Qed.

Lemma run_blocks_same bs nm e : forall out,
  Forall (fun block => keeps_name block.2) bs ->
  NoDup bs.*1 ->
  (nm, e) ∈ bs ->
  child (run_blocks bs out).1 nm = Some (e (section_of out nm)).1.
Proof.
  induction bs as [|b bs IH]; intros out Hbs Hnd Hin.
  - by apply elem_of_nil in Hin.
  - apply Forall_cons in Hbs as [Hb Hbs].
    simpl in Hnd. apply NoDup_cons in Hnd as [Hfresh Hnd].
    unfold run_blocks. rewrite for_each_cons. cbn [fst].
    fold (run_blocks bs). apply elem_of_cons in Hin as [<-|Hin].
    + rewrite run_blocks_other by done. by apply in_child_same.
    + rewrite (IH _ Hbs Hnd Hin). do 3 f_equal.
      unfold section_of. f_equal. apply in_child_other; [done|].
      intros Heq. apply Hfresh. rewrite Heq.
      by apply (list_elem_of_fmap_2 fst _ (nm, e)).
Qed.

Lemma section_mergers_tags cwd robot xmlFile root :
  (section_mergers cwd robot xmlFile root).*1 = section_tags.
Proof. reflexivity. Qed.

Lemma section_tags_NoDup : NoDup section_tags.
Proof. apply (bool_decide_unpack _). by vm_compute. Qed.

Lemma section_mergers_keep cwd robot xmlFile root k :
  Forall (fun block => keeps_name block.2) (take k (section_mergers cwd robot xmlFile root)).
Proof.
  apply Forall_forall. intros b Hb%subseteq_take.
  by eapply keeps_name_section_mergers.
Qed.

Lemma merge_blocks_names cwd k robot xmlFile root out :
  map name (children (merge_blocks cwd k robot xmlFile root out).1) =
  foldl add_name (map name (children out)) (take k section_tags).
Proof.
  unfold merge_blocks.
  rewrite run_blocks_names by apply section_mergers_keep.
  by rewrite fmap_take, section_mergers_tags.
Qed.

Lemma merge_sections_child cwd robot xmlFile root out nm e :
  (nm, e) ∈ section_mergers cwd robot xmlFile root ->
  child (merge_sections cwd robot xmlFile root out).1 nm = Some (e (section_of out nm)).1.
Proof.
  intros Hin. unfold merge_sections, merge_blocks.
  rewrite firstn_all2 by (simpl; lia).
  apply (run_blocks_same (section_mergers cwd robot xmlFile root)); [| |done].
  - apply (section_mergers_keep cwd robot xmlFile root 10).
  - rewrite section_mergers_tags. apply section_tags_NoDup.
Qed.

Lemma merge_sections_name cwd robot xmlFile root out :
  name (merge_sections cwd robot xmlFile root out).1 = name out.
Proof.
  apply keeps_name_for_each. intros b. apply keeps_name_in_child.
Qed.

(** ** The loop over the entities *)

Section Loop.

Variable cwd : string.
Variable load_file : string -> option xml_node.

Lemma merge_mujoco_model_loaded robot xmlFile root out :
  root_of load_file xmlFile = Some root ->
  merge_mujoco_model cwd load_file robot xmlFile out =
  Ok (merge_sections cwd robot xmlFile root out).
Proof.
  unfold root_of, merge_mujoco_model.
  destruct (load_file xmlFile) as [doc|]; simpl; [|done].
  by intros ->.
Qed.

Lemma merge_mujoco_model_failed robot xmlFile out :
  root_of load_file xmlFile = None ->
  merge_mujoco_model cwd load_file robot xmlFile out =
  Throw (error_message load_file xmlFile).
Proof.
  unfold root_of, merge_mujoco_model, error_message.
  destruct (load_file xmlFile) as [doc|]; simpl; [|done].
  by intros ->.
Qed.

Lemma merge_loop_invariant (P : xml_node -> Prop) :
  (forall robot xmlFile root out,
      root_of load_file xmlFile = Some root ->
      P out -> P (merge_sections cwd robot xmlFile root out).1) ->
  forall robots xmlFiles out log log' out',
    P out ->
    merge_loop cwd load_file robots xmlFiles out log = (log', Ok out') ->
    P out'.
Proof.
  intros Hstep robots.
  induction robots as [|robot robots IH]; intros xmlFiles out log log' out' HP; simpl.
  - by intros [= _ <-].
  - destruct xmlFiles as [|xmlFile xmlFiles]; [done|].
    destruct (root_of load_file xmlFile) as [root|] eqn:Hroot.
    + rewrite (merge_mujoco_model_loaded _ _ root) by done.
      destruct (merge_sections cwd robot xmlFile root out) as [out1 log1] eqn:E.
      apply IH. specialize (Hstep robot xmlFile root out Hroot HP).
      by rewrite E in Hstep.
    + by rewrite merge_mujoco_model_failed.
Qed.

Lemma merge_loop_throws good : forall robots bad rest out log,
  length robots = length (good ++ bad :: rest) ->
  Forall (fun f => is_Some (root_of load_file f)) good ->
  root_of load_file bad = None ->
  merge_loop cwd load_file robots (good ++ bad :: rest) out log =
  ((merge_loop cwd load_file (take (length good) robots) good out log).1,
   Throw (error_message load_file bad)).
Proof.
  induction good as [|f good IH]; intros robots bad rest out log Hlen Hgood Hbad.
  - destruct robots as [|robot robots]; [done|]. simpl.
    by rewrite merge_mujoco_model_failed.
  - destruct robots as [|robot robots]; [done|].
    apply Forall_cons in Hgood as [[root Hroot] Hgood]. simpl.
    rewrite (merge_mujoco_model_loaded _ _ root) by done.
    destruct (merge_sections cwd robot f root out) as [out1 log1].
    apply IH; [|done..]. simpl in Hlen. lia.
Qed.

Lemma first_failure xmlFiles :
  (exists f, f ∈ xmlFiles /\ root_of load_file f = None) ->
  exists good bad rest,
    xmlFiles = good ++ bad :: rest /\
    Forall (fun f => is_Some (root_of load_file f)) good /\
    root_of load_file bad = None.
Proof.
  induction xmlFiles as [|f l IH]; intros (x & Hx & Hbad).
  - by apply elem_of_nil in Hx.
  - destruct (root_of load_file f) as [root|] eqn:Hf.
    + apply elem_of_cons in Hx as [->|Hx]; [congruence|].
      destruct IH as (good & bad & rest & -> & Hgood & Hb); [by exists x|].
      exists (f :: good), bad, rest. split; [done|]. split; [|done].
      apply Forall_cons. split; [by exists root|done].
    + exists [], f, l. by repeat split.
Qed.

Lemma merge_loop_names robots : forall xmlFiles out log log' out',
  map name (children out) = [] \/ map name (children out) = section_tags ->
  merge_loop cwd load_file robots xmlFiles out log = (log', Ok out') ->
  map name (children out') =
  match robots with [] => map name (children out) | _ => section_tags end.
Proof.
  induction robots as [|robot robots IH]; intros xmlFiles out log log' out' Hout; simpl.
  - by intros [= _ <-].
  - destruct xmlFiles as [|xmlFile xmlFiles]; [done|].
    destruct (root_of load_file xmlFile) as [root|] eqn:Hroot.
    + rewrite (merge_mujoco_model_loaded _ _ root) by done.
      destruct (merge_sections cwd robot xmlFile root out) as [out1 log1] eqn:E.
      assert (map name (children out1) = section_tags) as Hout1.
      { change out1 with (out1, log1).1. rewrite <- E.
        unfold merge_sections. rewrite merge_blocks_names.
        by destruct Hout as [-> | ->]. }
      intros Hloop. apply IH in Hloop; [|by right].
      rewrite Hloop. by destruct robots.
    + by rewrite merge_mujoco_model_failed.
Qed.

End Loop.

(** ** Accumulated counters and first-wins values across entities *)

Lemma attribute_section_of out sec a :
  attribute (section_of out sec) a = section_attribute out sec a.
Proof. unfold section_of, section_attribute. by destruct (child out sec). Qed.

Lemma attribute_of_attr_find in_ a :
  attribute_of in_ a = attr_find a (attributes_of in_).
Proof. by destruct in_. Qed.

Lemma merge_mujoco_node_first_wins node fileIn in_ exclude out a :
  a ∉ exclude ->
  attribute (merge_mujoco_node node fileIn in_ exclude out).1 a =
  first_wins (attribute out a) (attribute_of in_ a).
Proof.
  intros Ha. rewrite attribute_of_attr_find. by apply merge_attrs_first_wins.
Qed.

Lemma merge_mujoco_option_first_wins fileIn in_ out a :
  attribute (merge_mujoco_option fileIn in_ out).1 a =
  first_wins (attribute out a) (attribute_of in_ a).
Proof.
  unfold merge_mujoco_option. rewrite edit_seq_eq. cbn [fst].
  rewrite <- (merge_mujoco_node_first_wins "option" fileIn in_ [] out a)
    by apply not_elem_of_nil.
  destruct (child_of in_ "flag"); [|done].
  unfold attribute. by rewrite in_child_attributes.
Qed.

Section Accumulation.

Variable cwd : string.
Variable load_file : string -> option xml_node.

Lemma merge_sections_size robot xmlFile root out c :
  c ∈ size_attributes ->
  section_attribute (merge_sections cwd robot xmlFile root out).1 "size" c =
  accumulate (section_attribute out "size" c) (section_attribute root "size" c).
Proof.
  intros Hc. unfold section_attribute at 1.
  rewrite (merge_sections_child _ _ _ _ _ "size"
             (silent (merge_mujoco_size (child root "size")))).
  - change (attribute (merge_mujoco_size (child root "size") (section_of out "size")) c =
            accumulate (section_attribute out "size" c) (section_attribute root "size" c)).
    rewrite merge_mujoco_size_accumulates by done.
    by rewrite attribute_section_of.
  - unfold section_mergers. apply list_elem_of_In. simpl. tauto.
Qed.

Lemma merge_sections_option robot xmlFile root out a :
  section_attribute (merge_sections cwd robot xmlFile root out).1 "option" a =
  first_wins (section_attribute out "option" a) (section_attribute root "option" a).
Proof.
  unfold section_attribute at 1.
  rewrite (merge_sections_child _ _ _ _ _ "option"
             (merge_mujoco_option xmlFile (child root "option"))).
  - change (attribute
              (merge_mujoco_option xmlFile (child root "option") (section_of out "option")).1 a =
            first_wins (section_attribute out "option" a) (section_attribute root "option" a)).
    rewrite merge_mujoco_option_first_wins.
    by rewrite attribute_section_of.
  - unfold section_mergers. apply list_elem_of_In. simpl. tauto.
Qed.

Lemma merge_loop_size c es : forall out log log' out',
  c ∈ size_attributes ->
  merge_loop cwd load_file es.*1 es.*2 out log = (log', Ok out') ->
  Forall (fun e : string * string => is_Some (root_of load_file e.2)) es /\
  section_attribute out' "size" c =
  foldl accumulate (section_attribute out "size" c) (declared load_file "size" c <$> es.*2).
Proof.
  induction es as [|[robot xmlFile] es IH]; intros out log log' out' Hc; simpl.
  - by intros [= _ <-].
  - destruct (root_of load_file xmlFile) as [root|] eqn:Hroot.
    + rewrite (merge_mujoco_model_loaded _ _ _ _ root) by done.
      destruct (merge_sections cwd robot xmlFile root out) as [out1 log1] eqn:E.
      intros Hloop. apply IH in Hloop as [Hall ->]; [|done].
      split; [apply Forall_cons; split; [by exists root|done]|].
      f_equal. change out1 with (out1, log1).1. rewrite <- E.
      rewrite merge_sections_size by done.
      unfold declared. by rewrite Hroot.
    + by rewrite merge_mujoco_model_failed.
Qed.

Lemma merge_loop_succeeds es : forall out log,
  Forall (fun e : string * string => is_Some (root_of load_file e.2)) es ->
  exists log' out', merge_loop cwd load_file es.*1 es.*2 out log = (log', Ok out').
Proof.
  induction es as [|[robot xmlFile] es IH]; intros out log Hall; simpl.
  - by eexists _, _.
  - apply Forall_cons in Hall as [[root Hroot] Hall]. simpl in Hroot.
    rewrite (merge_mujoco_model_loaded _ _ _ _ root) by done.
    destruct (merge_sections cwd robot xmlFile root out) as [out1 log1].
    by apply IH.
Qed.

Lemma merge_loop_name robots : forall xmlFiles out log log' out',
  merge_loop cwd load_file robots xmlFiles out log = (log', Ok out') ->
  name out' = name out.
Proof.
  intros xmlFiles out log log' out' H. symmetry.
  revert H. apply (merge_loop_invariant cwd load_file (fun o => name out = name o)); [|done].
  intros robot xmlFile root o _ ->. by rewrite merge_sections_name.
Qed.

End Accumulation.

Lemma accumulate_swap s x y :
  accumulate (accumulate s x) y = accumulate (accumulate s y) x.
Proof.
  destruct x as [i|], y as [j|]; try done.
  destruct s as [o|]; simpl.
  - rewrite !as_int_int_to_string by apply int_add_range.
    by rewrite int_add_assoc_swap.
  - by rewrite int_add_comm.
Qed.

Lemma foldl_accumulate_perm l1 l2 :
  l1 ≡ₚ l2 -> forall s, foldl accumulate s l1 = foldl accumulate s l2.
Proof.
  induction 1 as [|x l1 l2 _ IH|x y l|l1 l2 l3 _ IH1 _ IH2]; intros s; simpl.
  - done.
  - apply IH.
  - by rewrite accumulate_swap.
  - by rewrite IH1.
Qed.

(** ** Prefixes *)

Lemma name_add_prefix prefix n a : name (add_prefix prefix n a) = name n.
Proof. unfold add_prefix. by destruct (attribute n a). Qed.

Lemma children_add_prefix prefix n a : children (add_prefix prefix n a) = children n.
Proof. unfold add_prefix. by destruct (attribute n a). Qed.

Lemma attribute_add_prefix prefix n a b :
  attribute (add_prefix prefix n a) b =
  if String.eqb a b then prefixed prefix <$> attribute n b else attribute n b.
Proof.
  unfold add_prefix. destruct (String.eqb a b) eqn:E.
  - apply String.eqb_eq in E as ->.
    destruct (attribute n b) as [v|] eqn:Hv; [|by rewrite Hv].
    by erewrite attribute_set_value_eq.
  - apply String.eqb_neq in E.
    destruct (attribute n a); [|done]. by apply attribute_set_value_ne.
Qed.

Lemma name_add_prefixes prefix attrs : forall n,
  name (foldl (add_prefix prefix) n attrs) = name n.
Proof.
  induction attrs as [|a attrs IH]; intros n; [done|].
  simpl. by rewrite IH, name_add_prefix.
Qed.

Lemma children_add_prefixes prefix attrs : forall n,
  children (foldl (add_prefix prefix) n attrs) = children n.
Proof.
  induction attrs as [|a attrs IH]; intros n; [done|].
  simpl. by rewrite IH, children_add_prefix.
Qed.

Lemma attribute_add_prefixes_other prefix attrs b : forall n,
  b ∉ attrs -> attribute (foldl (add_prefix prefix) n attrs) b = attribute n b.
Proof.
  induction attrs as [|a attrs IH]; intros n Hb; [done|].
  apply not_elem_of_cons in Hb as [Hne Hb]. simpl.
  rewrite IH, attribute_add_prefix by done.
  by destruct (String.eqb_spec a b).
Qed.

Lemma attribute_add_prefixes prefix attrs b : forall n,
  NoDup attrs -> b ∈ attrs ->
  attribute (foldl (add_prefix prefix) n attrs) b = prefixed prefix <$> attribute n b.
Proof.
  induction attrs as [|a attrs IH]; intros n Hnd Hb.
  - by apply elem_of_nil in Hb.
  - apply NoDup_cons in Hnd as [Ha Hnd]. simpl.
    destruct (decide (b = a)) as [->|Hne].
    + rewrite attribute_add_prefixes_other by done.
      by rewrite attribute_add_prefix, String.eqb_refl.
    + apply elem_of_cons in Hb as [?|Hb]; [done|].
      rewrite IH, attribute_add_prefix by done.
      by destruct (String.eqb_spec a b).
Qed.

(** The two loops of [add_prefix_recursively], one after the other. *)
Lemma add_prefix_recursively_eq prefix attrs out :
  add_prefix_recursively prefix attrs out =
  let out1 := foldl (add_prefix prefix) out attrs in
  Node (name out1) (attributes out1) (map (add_prefix_recursively prefix attrs) (children out1)).
Proof.
  destruct out as [nm ats cs]. cbn zeta.
  by rewrite name_add_prefixes, children_add_prefixes.
Qed.

(** ** Paths and asset files *)

Lemma is_absolute_append p q :
  bfs.is_absolute p = true -> bfs.is_absolute (p </> q) = true.
Proof.
  destruct p as [|c p]; [done|]. simpl. intros Hc.
  destruct q as [|d q]; [done|].
  unfold bfs.append. by destruct (_ || _).
Qed.

Lemma is_absolute_absolute cwd p :
  bfs.is_absolute cwd = true -> bfs.is_absolute (bfs.absolute cwd p) = true.
Proof.
  intros Hcwd. unfold bfs.absolute.
  destruct (bfs.is_absolute p) eqn:E; [done|]. by apply is_absolute_append.
Qed.


Lemma name_update_file cwd dir n : name (update_file cwd dir n) = name n.
Proof.
  unfold update_file. destruct (attribute n "file") as [v|]; [|done].
  by destruct (bfs.is_absolute v).
Qed.




(** What [merge_mujoco_asset] appends, loop by loop. *)
Lemma merge_mujoco_asset_children cwd in_ meshPath texturePath robot out :
  children (merge_mujoco_asset cwd in_ meshPath texturePath robot out) =
  children out
  ++ map (update_name robot) (children_named_of in_ "hfield")
  ++ map (fun s => prefix_bones robot (update_file cwd meshPath (update_name robot s)))
       (children_named_of in_ "skin")
  ++ map (fun mat => add_prefix robot (update_name robot mat) "texture")
       (children_named_of in_ "material")
  ++ map (fun n => update_file cwd texturePath (update_name robot n))
       (children_named_of in_ "texture")
  ++ map (fun n => update_file cwd meshPath (update_name robot n))
       (children_named_of in_ "mesh").
Proof.
  unfold merge_mujoco_asset, copy_assets.
  rewrite !children_foldl_append_copy. by rewrite <- !app_assoc.
Qed.


Lemma drop_while_last f (l : list ascii) c :
  bfs.drop_while f (l ++ [c]) = [] \/ exists l', bfs.drop_while f (l ++ [c]) = l' ++ [c].
Proof.
  induction l as [|d l IH]; simpl.
  - destruct (f c); [by left|right]. by exists [].
  - destruct (f d); [done|]. right. by exists (d :: l).
Qed.

Lemma drop_name_keeps_root (l : list ascii) :
  bfs.drop_while (fun c => negb (bfs.is_sep c)) (l ++ ["/"%char]) <> [].
Proof.
  induction l as [|d l IH]; simpl; [done|].
  by destruct (negb (bfs.is_sep d)).
Qed.

Lemma parent_path_absolute p :
  bfs.is_absolute p = true -> bfs.is_absolute (bfs.parent_path p) = true.
Proof.
  destruct p as [|c p]; [done|]. simpl. intros Hc.
  assert (c = "/"%char) as ->.
  { destruct c as [[] [] [] [] [] [] [] []]; simpl in Hc; congruence. }
  unfold bfs.parent_path. cbn [list_ascii_of_string rev].
  destruct (drop_while_last (fun c => negb (bfs.is_sep c)) (rev (list_ascii_of_string p)) "/")
    as [H|[l1 ->]].
  - by apply drop_name_keeps_root in H.
  - destruct (drop_while_last bfs.is_sep l1 "/") as [->|[l2 ->]].
    + by destruct (l1 ++ ["/"%char]) eqn:E; [destruct l1|].
    + destruct (l2 ++ ["/"%char]) as [|a l] eqn:E; [by destruct l2|].
      change (rev l ++ [a]) with (rev (a :: l)).
      by rewrite <- E, rev_app_distr.
Qed.

(** ** Counting sections, written documents and copied subtrees *)

Lemma count_named l tag :
  length (filter (fun c => name c = tag) l) =
  length (filter (fun n => n = tag) (map name l)).
Proof.
  induction l as [|c l IH]; [done|].
  simpl. rewrite !filter_cons.
  destruct (decide (name c = tag)); simpl; by rewrite IH.
Qed.

Lemma add_names_fresh k :
  foldl add_name [] (take k section_tags) = take k section_tags.
Proof. do 11 (destruct k as [|k]; [by vm_compute|]). by vm_compute. Qed.

Lemma add_names_again k :
  foldl add_name section_tags (take k section_tags) = section_tags.
Proof. do 11 (destruct k as [|k]; [by vm_compute|]). by vm_compute. Qed.

Section Written.

Variable cwd : string.
Variable load_file : string -> option xml_node.

(** A file is written exactly when the list of files is no singleton
    and the loop over the entities ends without an exception. *)
Lemma written_inv robots xmlFiles p doc :
  written (merge_mujoco_models cwd load_file robots xmlFiles) = Some (p, doc) ->
  length xmlFiles <> 1%nat /\
  exists log out,
    merge_loop cwd load_file robots xmlFiles new_root [] = (log, Ok out) /\
    p = outFile /\ doc = Node "" [] [out] /\ name out = "mujoco".
Proof.
  unfold merge_mujoco_models. intros H.
  assert (length xmlFiles <> 1%nat /\
          written (match merge_loop cwd load_file robots xmlFiles new_root [] with
                   | (log, Ok out) => Run log (Some (outFile, Node "" [] [out])) (Ok outFile)
                   | (log, Throw msg) => Run log None (Throw msg)
                   | (log, Undefined) => Run log None Undefined
                   end) = Some (p, doc)) as [Hlen Hw].
  { destruct xmlFiles as [|f [|g l]]; [done|done|done]. }
  split; [done|].
  destruct (merge_loop cwd load_file robots xmlFiles new_root []) as [log [out| |]] eqn:E;
    [|done..].
  injection Hw as <- <-. exists log, out. repeat split.
  by apply merge_loop_name in E.
Qed.

Lemma written_intro robots xmlFiles log out :
  length xmlFiles <> 1%nat ->
  merge_loop cwd load_file robots xmlFiles new_root [] = (log, Ok out) ->
  written (merge_mujoco_models cwd load_file robots xmlFiles) =
  Some (outFile, Node "" [] [out]).
Proof.
  intros Hlen E. unfold merge_mujoco_models. rewrite E.
  by destruct xmlFiles as [|f [|g l]].
Qed.

Lemma merged_attribute_root out sec a :
  name out = "mujoco" ->
  merged_attribute (Node "" [] [out]) sec a = section_attribute out sec a.
Proof.
  intros Hname. unfold merged_attribute, child. simpl. by rewrite Hname.
Qed.

End Written.

Section AssetFiles.

Variable cwd : string.
Variable load_file : string -> option xml_node.
Hypothesis cwd_absolute : bfs.is_absolute cwd = true.



End AssetFiles.

Lemma children_add_prefix_recursively prefix attrs n :
  children (add_prefix_recursively prefix attrs n) =
  map (add_prefix_recursively prefix attrs) (children n).
Proof. rewrite add_prefix_recursively_eq. simpl. by rewrite children_add_prefixes. Qed.

Lemma attributes_add_prefix_recursively prefix attrs n :
  attributes (add_prefix_recursively prefix attrs n) =
  attributes (foldl (add_prefix prefix) n attrs).
Proof. by rewrite add_prefix_recursively_eq. Qed.

Lemma worldbody_attrs_NoDup : NoDup worldbody_attrs.
Proof. apply (bool_decide_unpack _). by vm_compute. Qed.

(** * The claims *)

(** C1, where the code departs from it: every top-level child of the
    source worldbody is copied into the output, and in every node of the
    copy (the recursion goes through all children) [name], [class],
    [material], [hfield], [mesh] and [target] are prefixed with the entity
    identifier and an underscore, but [childclass] is left as it was,
    because the list of [merge_mujoco_worldbody] spells it [childclasss].
    For entity [r1] a body [arm] with [childclass="arm_class"] becomes
    [r1_arm] and keeps [arm_class], while the [class] of the geom below
    it becomes [r1_arm_class]. *)
Theorem C1_childclass_not_prefixed :
  (forall in_ robot out,
     children (merge_mujoco_worldbody in_ robot out) =
     children out ++ map (add_prefix_recursively robot worldbody_attrs) (children_of in_)) /\
  (forall robot m,
     let m' := add_prefix_recursively robot worldbody_attrs m in
     Forall (fun a => attribute m' a = prefixed robot <$> attribute m a)
       ["name"; "class"; "material"; "hfield"; "mesh"; "target"] /\
     attribute m' "childclass" = attribute m "childclass" /\
     children m' = map (add_prefix_recursively robot worldbody_attrs) (children m)) /\
  merge_mujoco_worldbody
    (Some (Node "worldbody" []
             [Node "body" [("name", "arm"); ("childclass", "arm_class")]
                [Node "joint" [("name", "j1")] [];
                 Node "geom" [("name", "g1"); ("class", "arm_class")] []]]))
    "r1" (Node "worldbody" [] []) =
  Node "worldbody" []
    [Node "body" [("name", "r1_arm"); ("childclass", "arm_class")]
       [Node "joint" [("name", "r1_j1")] [];
        Node "geom" [("name", "r1_g1"); ("class", "r1_arm_class")] []]].
Proof.
  split; [|split; [|reflexivity]].
  - intros in_ robot out. apply children_foldl_append_copy.
  - intros robot m m'. split; [|split].
    + apply Forall_forall. intros a Ha. unfold m', attribute.
      rewrite attributes_add_prefix_recursively.
      apply attribute_add_prefixes; [apply worldbody_attrs_NoDup|].
      apply list_elem_of_In in Ha. apply list_elem_of_In. simpl in *. tauto.
    + unfold m', attribute. rewrite attributes_add_prefix_recursively.
      apply attribute_add_prefixes_other.
      intros H. apply (bool_decide_pack _) in H. by vm_compute in H.
    + apply children_add_prefix_recursively.
Qed.




(** C3: when the list of file paths has exactly one element, the
    orchestrator returns that path, writes no file and merges nothing,
    whatever the list of entity identifiers is. *)
Theorem C3_single_file_returned_unchanged
    (cwd : string) (load_file : string -> option xml_node)
    (robots xmlFiles : list string) (only : string) :
  length xmlFiles = 1%nat ->
  xmlFiles !! 0%nat = Some only ->
  merge_mujoco_models cwd load_file robots xmlFiles = Run [] None (Ok only).
Proof.
  intros Hlen Hfirst.
  destruct xmlFiles as [|f [|g l]]; [done| |done].
  by injection Hfirst as ->.
Qed.

Lemma C3_single_file_witness :
  merge_mujoco_models "/home/user" (fun _ => None) ["r1"] ["/opt/r1/model.xml"] =
  Run [] None (Ok "/opt/r1/model.xml").
Proof.
  apply (C3_single_file_returned_unchanged "/home/user" (fun _ => None)
           ["r1"] ["/opt/r1/model.xml"] "/opt/r1/model.xml");
    reflexivity.
Defined.

(** C4: for each of the counters njmax, nconmax, nstack, nuserdata,
    nkey, nuser_body, nuser_jnt, nuser_geom, nuser_site, nuser_cam,
    nuser_tendon, nuser_actuator and nuser_sensor, [merge_mujoco_size]
    leaves on the output node: the source value when the output had none;
    the decimal text of the [int] sum of the two values when both had
    one, which is their integer sum whenever that sum is an [int]; and
    the old output value when the source has none. *)
Theorem C4_size_counters_accumulate
    (in_ : option xml_node) (out : xml_node) (a : string) :
  a ∈ ["njmax"; "nconmax"; "nstack"; "nuserdata"; "nkey";
       "nuser_body"; "nuser_jnt"; "nuser_geom"; "nuser_site"; "nuser_cam";
       "nuser_tendon"; "nuser_actuator"; "nuser_sensor"] ->
  (forall i, attribute out a = None -> attribute_of in_ a = Some i ->
     attribute (merge_mujoco_size in_ out) a = Some i) /\
  (forall o i, attribute out a = Some o -> attribute_of in_ a = Some i ->
     attribute (merge_mujoco_size in_ out) a =
       Some (pugi.int_to_string (pugi.int_add (pugi.as_int o) (pugi.as_int i))) /\
     (pugi.INT_MIN <= pugi.as_int o + pugi.as_int i <= pugi.INT_MAX ->
      attribute (merge_mujoco_size in_ out) a =
        Some (pugi.int_to_string (pugi.as_int o + pugi.as_int i)) /\
      pugi.as_int (pugi.int_to_string (pugi.as_int o + pugi.as_int i)) =
        pugi.as_int o + pugi.as_int i)) /\
  (attribute_of in_ a = None ->
     attribute (merge_mujoco_size in_ out) a = attribute out a).
Proof.
  intros Ha. rewrite merge_mujoco_size_accumulates by exact Ha.
  split; [|split].
  - by intros i -> ->.
  - intros o i -> ->. split; [done|]. intros Hrange. cbn [accumulate].
    by rewrite int_add_exact, as_int_int_to_string.
  - by intros ->.
Qed.

Lemma C4_size_counters_witness :
  Forall
    (fun a =>
       attribute
         (merge_mujoco_size
            (Some (Node "size"
                     [("njmax", "5"); ("nconmax", "5"); ("nstack", "5"); ("nuserdata", "5");
                      ("nkey", "5"); ("nuser_body", "5"); ("nuser_jnt", "5");
                      ("nuser_geom", "5"); ("nuser_site", "5"); ("nuser_cam", "5");
                      ("nuser_tendon", "5"); ("nuser_actuator", "5");
                      ("nuser_sensor", "5")] []))
            (Node "size"
               [("njmax", "10"); ("nconmax", "10"); ("nstack", "10"); ("nuserdata", "10");
                ("nkey", "10"); ("nuser_body", "10"); ("nuser_jnt", "10");
                ("nuser_geom", "10"); ("nuser_site", "10"); ("nuser_cam", "10");
                ("nuser_tendon", "10"); ("nuser_actuator", "10");
                ("nuser_sensor", "10")] [])) a = Some "15")
    ["njmax"; "nconmax"; "nstack"; "nuserdata"; "nkey";
     "nuser_body"; "nuser_jnt"; "nuser_geom"; "nuser_site"; "nuser_cam";
     "nuser_tendon"; "nuser_actuator"; "nuser_sensor"].
Proof.
  apply Forall_forall. intros a Ha.
  destruct (C4_size_counters_accumulate
              (Some (Node "size"
                       [("njmax", "5"); ("nconmax", "5"); ("nstack", "5"); ("nuserdata", "5");
                        ("nkey", "5"); ("nuser_body", "5"); ("nuser_jnt", "5");
                        ("nuser_geom", "5"); ("nuser_site", "5"); ("nuser_cam", "5");
                        ("nuser_tendon", "5"); ("nuser_actuator", "5");
                        ("nuser_sensor", "5")] []))
              (Node "size"
                 [("njmax", "10"); ("nconmax", "10"); ("nstack", "10"); ("nuserdata", "10");
                  ("nkey", "10"); ("nuser_body", "10"); ("nuser_jnt", "10");
                  ("nuser_geom", "10"); ("nuser_site", "10"); ("nuser_cam", "10");
                  ("nuser_tendon", "10"); ("nuser_actuator", "10");
                  ("nuser_sensor", "10")] []) a Ha) as (_ & Hboth & _).
  apply list_elem_of_In in Ha. simpl in Ha.
  repeat (destruct Ha as [<-|Ha];
          [destruct (Hboth "10" "5" eq_refl eq_refl) as [_ Hsum];
           destruct Hsum as [-> _]; [by vm_compute|reflexivity]|]).
  destruct Ha.
Defined.

(** C5: one step of the generic attribute merge on a source attribute
    that the target already has keeps the target as it is and logs exactly
    one conflict (section, attribute, source file, losing value, kept
    value) when the two values differ, and nothing when they are equal.
    Over a whole node: every attribute the target had keeps its value, and
    the log holds one conflict for each source attribute that is not
    excluded and differs from the value the target ends with. *)
Theorem C5_first_value_wins_with_one_diagnostic
    (node fileIn : string) (exclude : list string) :
  (forall a v w out,
     a ∉ exclude -> attribute out a = Some w ->
     merge_attr node fileIn exclude (a, v) out =
     (out, if String.eqb w v then [] else [Diagnostic node a fileIn v w])) /\
  (forall in_ out,
     let merged := merge_mujoco_node node fileIn in_ exclude out in
     (forall a w, attribute out a = Some w -> attribute merged.1 a = Some w) /\
     merged.2 = omap (conflict node fileIn exclude merged.1) (attributes_of in_)).
Proof.
  split.
  - intros a v w out. apply merge_attr_present.
  - intros in_ out. split.
    + intros a w. apply merge_attrs_keep.
    + apply merge_attrs_log.
Qed.

Lemma C5_first_value_wins_witness :
  merge_attr "option" "b.xml" [] ("timestep", "0.002")
    (Node "option" [("timestep", "0.001")] []) =
  (Node "option" [("timestep", "0.001")] [],
   [Diagnostic "option" "timestep" "b.xml" "0.002" "0.001"]).
Proof.
  destruct (C5_first_value_wins_with_one_diagnostic "option" "b.xml" []) as [Hstep _].
  apply (Hstep "timestep" "0.002" "0.001" (Node "option" [("timestep", "0.001")] [])).
  - apply not_elem_of_nil.
  - reflexivity.
Defined.

(** C6: the mesh and the texture base directory are both
    [get_mujoco_path]: without the directory attribute on the compiler
    section it is the directory that contains the source file; with an
    absolute value it is that value; with a relative value it is the value
    resolved against the directory of the source file, which is their
    join when the source file has an absolute path. *)
Theorem C6_base_directories
    (cwd xmlFile : string) (root : xml_node) (attr : string) :
  let declared_dir := attribute_of (child root "compiler") attr in
  (declared_dir = None ->
     get_mujoco_path cwd xmlFile root attr = bfs.parent_path xmlFile) /\
  (forall d, declared_dir = Some d -> bfs.is_absolute d = true ->
     get_mujoco_path cwd xmlFile root attr = d) /\
  (forall d, declared_dir = Some d -> bfs.is_absolute d = false ->
     get_mujoco_path cwd xmlFile root attr =
       bfs.absolute cwd (bfs.parent_path xmlFile </> d) /\
     (bfs.is_absolute xmlFile = true ->
      get_mujoco_path cwd xmlFile root attr = bfs.parent_path xmlFile </> d)).
Proof.
  unfold get_mujoco_path. cbn zeta. split; [|split].
  - by intros ->.
  - by intros d -> ->.
  - intros d -> ->. split; [done|]. intros Habs.
    unfold bfs.absolute. by rewrite is_absolute_append by by apply parent_path_absolute.
Qed.

Lemma C6_base_directories_witness :
  get_mujoco_path "/home/user" "/opt/robots/r1/model.xml"
    (Node "mujoco" [] [Node "compiler" [("meshdir", "meshes")] []]) "meshdir" =
  "/opt/robots/r1/meshes".
Proof.
  destruct (C6_base_directories "/home/user" "/opt/robots/r1/model.xml"
              (Node "mujoco" [] [Node "compiler" [("meshdir", "meshes")] []]) "meshdir")
    as (_ & _ & Hrel).
  destruct (Hrel "meshes" eq_refl eq_refl) as [_ ->]; reflexivity.
Defined.

(** C7: in a merge of parallel lists that are not a single entity, as
    soon as a listed file cannot be loaded or has no [mujoco] root the
    call raises the error of the first such file, writes no output file,
    and has logged only what the entities before that file logged: the
    entities after it are never processed. *)
Theorem C7_failed_load_aborts_merge
    (cwd : string) (load_file : string -> option xml_node)
    (robots xmlFiles : list string) :
  length robots = length xmlFiles ->
  length xmlFiles <> 1%nat ->
  (exists f, f ∈ xmlFiles /\ root_of load_file f = None) ->
  exists good bad rest,
    xmlFiles = good ++ bad :: rest /\
    Forall (fun f => is_Some (root_of load_file f)) good /\
    root_of load_file bad = None /\
    let r := merge_mujoco_models cwd load_file robots xmlFiles in
    returned r = Throw (error_message load_file bad) /\
    written r = None /\
    diagnostics r =
      (merge_loop cwd load_file (take (length good) robots) good new_root []).1.
Proof.
  intros Hlen Hmulti Hbad.
  destruct (first_failure load_file xmlFiles Hbad) as (good & bad & rest & -> & Hgood & Hb).
  exists good, bad, rest. repeat (split; [done|]).
  unfold merge_mujoco_models.
  rewrite (merge_loop_throws cwd load_file good robots bad rest) by done.
  destruct (good ++ bad :: rest) as [|f [|g l]]; [done| |done].
  by destruct Hmulti.
Qed.

Lemma C7_failed_load_witness :
  returned (merge_mujoco_models "/home/user" sample_files ["r1"; "r2"; "r3"]
              ["/opt/r1/a.xml"; "/opt/missing.xml"; "/opt/r2/b.xml"]) =
    Throw "Failed to load /opt/missing.xml" /\
  written (merge_mujoco_models "/home/user" sample_files ["r1"; "r2"; "r3"]
             ["/opt/r1/a.xml"; "/opt/missing.xml"; "/opt/r2/b.xml"]) = None.
Proof.
  destruct (C7_failed_load_aborts_merge "/home/user" sample_files ["r1"; "r2"; "r3"]
              ["/opt/r1/a.xml"; "/opt/missing.xml"; "/opt/r2/b.xml"])
    as (good & bad & rest & Hsplit & Hgood & Hbad & Hret & Hwritten & _).
  - reflexivity.
  - discriminate.
  - exists "/opt/missing.xml". split; [|reflexivity].
    apply list_elem_of_In. simpl. tauto.
  - split; [reflexivity|exact Hwritten].
Defined.

(** C8: at every point of a merge, that is after any number of merged
    entities and any number [k] of the ten blocks of the next one, the
    children of the output root are the section tags referenced so far,
    each once and in the order of first reference: the first [k] tags
    while the first entity is merged, all ten afterwards.  So a tag
    referenced so far has exactly one node, and a later reference reuses
    it. *)
Theorem C8_one_node_per_section
    (cwd : string) (load_file : string -> option xml_node)
    (robots xmlFiles : list string) (log : list diagnostic) (out : xml_node)
    (robot xmlFile : string) (root : xml_node) (k : nat) (tag : string) :
  merge_loop cwd load_file robots xmlFiles new_root [] = (log, Ok out) ->
  tag ∈ section_tags ->
  let state := (merge_blocks cwd k robot xmlFile root out).1 in
  map name (children state) =
    match robots with [] => take k section_tags | _ => section_tags end /\
  length (children_named state tag) =
    match robots with
    | [] => if bool_decide (tag ∈ take k section_tags) then 1%nat else 0%nat
    | _ => 1%nat
    end.
Proof.
  intros Hloop Htag state.
  assert (map name (children state) =
          match robots with [] => take k section_tags | _ => section_tags end) as Hnames.
  { unfold state. rewrite merge_blocks_names.
    apply merge_loop_names in Hloop; [|by left]. rewrite Hloop.
    destruct robots; [apply add_names_fresh|apply add_names_again]. }
  split; [done|].
  unfold children_named. rewrite count_named, Hnames.
  apply list_elem_of_In in Htag. simpl in Htag.
  destruct robots.
  - do 11 (destruct k as [|k];
           [repeat (destruct Htag as [<-|Htag]; [by vm_compute|]); done|]).
    repeat (destruct Htag as [<-|Htag]; [by vm_compute|]); done.
  - repeat (destruct Htag as [<-|Htag]; [by vm_compute|]); done.
Qed.

Lemma C8_one_node_per_section_witness :
  match merge_loop "/home/user" sample_files ["r1"] ["/opt/r1/a.xml"] new_root [] with
  | (_, Ok out) =>
      length (children_named
                (merge_blocks "/home/user" 2 "r2" "/opt/r2/b.xml"
                   (Node "mujoco" [] [Node "size" [("njmax", "5")] []]) out).1 "size") = 1%nat
  | _ => False
  end.
Proof.
  destruct (merge_loop "/home/user" sample_files ["r1"] ["/opt/r1/a.xml"] new_root [])
    as [log [out| |]] eqn:E.
  - assert ("size" ∈ section_tags) as Htag by (apply list_elem_of_In; simpl; tauto).
    apply (C8_one_node_per_section "/home/user" sample_files ["r1"] ["/opt/r1/a.xml"]
             log out "r2" "/opt/r2/b.xml"
             (Node "mujoco" [] [Node "size" [("njmax", "5")] []]) 2 "size" E Htag).
  - vm_compute in E. discriminate E.
  - vm_compute in E. discriminate E.
Defined.

(** C10: with no entity and no file the orchestrator does not fail: it
    writes, at the fixed output path, a document that holds only the root
    [mujoco] with [model="mc_mujoco"] and no section, and returns that
    path. *)
Theorem C10_empty_input_writes_bare_root
    (cwd : string) (load_file : string -> option xml_node) :
  merge_mujoco_models cwd load_file [] [] =
  Run [] (Some ("/tmp/mc_mujoco.xml", Node "" [] [Node "mujoco" [("model", "mc_mujoco")] []]))
    (Ok "/tmp/mc_mujoco.xml").
Proof. reflexivity. Qed.

(** * Further properties of the mergers *)

(** ** The attribute merger only appends *)

Lemma merge_attr_appends node fileIn exclude attr out :
  exists added,
    attributes (merge_attr node fileIn exclude attr out).1 = attributes out ++ added /\
    (forall kv, kv ∈ added -> kv = attr /\ (kv.1 ∉ exclude) /\ attribute out kv.1 = None) /\
    children (merge_attr node fileIn exclude attr out).1 = children out.
Proof.
  assert (forall n : xml_node,
            attributes n = attributes n ++ [] /\
            (forall kv : xml_attribute, kv ∈ [] ->
               kv = attr /\ (kv.1 ∉ exclude) /\ attribute out kv.1 = None) /\
            children n = children n) as Hnone.
  { intros n. rewrite app_nil_r. split; [done|]. split; [|done].
    by intros kv ?%elem_of_nil. }
  unfold merge_attr. destruct (bool_decide (attr.1 ∈ exclude)) eqn:Hex.
  - exists []. apply Hnone.
  - apply bool_decide_eq_false in Hex.
    destruct (attribute out attr.1) as [v|] eqn:Hv.
    + exists []. destruct (String.eqb v attr.2); apply Hnone.
    + exists [attr]. destruct attr as [k w]. split; [done|]. split; [|done].
      by intros kv ->%list_elem_of_singleton.
Qed.

Lemma merge_attrs_append node fileIn exclude l : forall out,
  exists added,
    attributes (for_each l (merge_attr node fileIn exclude) out).1 = attributes out ++ added /\
    (forall kv, kv ∈ added -> kv ∈ l /\ (kv.1 ∉ exclude) /\ attribute out kv.1 = None) /\
    children (for_each l (merge_attr node fileIn exclude) out).1 = children out.
Proof.
  induction l as [|x l IH]; intros out.
  - exists []. rewrite app_nil_r. split; [done|]. split; [|done].
    by intros kv ?%elem_of_nil.
  - rewrite for_each_cons. cbn [fst].
    destruct (merge_attr_appends node fileIn exclude x out) as (a1 & Ha1 & Hin1 & Hc1).
    destruct (IH (merge_attr node fileIn exclude x out).1) as (a2 & Ha2 & Hin2 & Hc2).
    exists (a1 ++ a2). split; [|split].
    + by rewrite Ha2, Ha1, app_assoc.
    + intros kv Hkv. apply elem_of_app in Hkv as [Hkv|Hkv].
      * destruct (Hin1 kv Hkv) as (-> & ? & ?). split; [apply list_elem_of_here|done].
      * destruct (Hin2 kv Hkv) as (? & ? & Hnone). split; [by apply list_elem_of_further|].
        split; [done|].
        destruct (attribute out kv.1) as [w|] eqn:Hw; [|done].
        by rewrite (merge_attr_keeps _ _ _ _ _ _ w Hw) in Hnone.
    + by rewrite Hc2, Hc1.
Qed.

(** X1: the generic attribute merge never removes, reorders or rewrites
    an attribute of the target and never touches its children: the
    attributes afterwards are the old ones followed by attributes taken
    from the source, each of them not excluded and new to the target. *)
Theorem X1_merge_node_only_appends
    (node fileIn : string) (in_ : option xml_node) (exclude : list string)
    (out : xml_node) :
  exists added,
    attributes (merge_mujoco_node node fileIn in_ exclude out).1 = attributes out ++ added /\
    Forall (fun kv => kv ∈ attributes_of in_ /\ (kv.1 ∉ exclude) /\ attribute out kv.1 = None)
      added /\
    children (merge_mujoco_node node fileIn in_ exclude out).1 = children out /\
    name (merge_mujoco_node node fileIn in_ exclude out).1 = name out.
Proof.
  destruct (merge_attrs_append node fileIn exclude (attributes_of in_) out)
    as (added & Hattrs & Hin & Hchildren).
  exists added. split; [done|]. split; [by apply Forall_forall|]. split; [done|].
  apply keeps_name_merge_mujoco_node.
Qed.

Lemma attr_find_absent a l :
  (forall kv, kv ∈ l -> kv.1 <> a) -> attr_find a l = None.
Proof.
  induction l as [|[k v] l IH]; intros H; [done|]. simpl.
  destruct (String.eqb_spec k a) as [->|_].
  - by destruct (H (a, v) (list_elem_of_here _ _)).
  - apply IH. intros kv Hkv. by apply H, list_elem_of_further.
Qed.

Lemma attr_find_NoDup a v l :
  NoDup l.*1 -> (a, v) ∈ l -> attr_find a l = Some v.
Proof.
  induction l as [|[k w] l IH]; intros Hnd Hin.
  - by apply elem_of_nil in Hin.
  - simpl in Hnd. apply NoDup_cons in Hnd as [Hk Hnd].
    apply elem_of_cons in Hin as [[= -> ->]|Hin]; simpl.
    + by rewrite String.eqb_refl.
    + destruct (String.eqb_spec k a) as [->|_]; [|by apply IH].
      destruct Hk. by apply (list_elem_of_fmap_2 fst _ (a, v)).
Qed.

Lemma attr_find_elem a v l : (a, v) ∈ l -> is_Some (attr_find a l).
Proof.
  induction l as [|[k w] l IH]; intros Hin; [by apply elem_of_nil in Hin|].
  simpl. destruct (String.eqb k a) eqn:E; [done|].
  apply elem_of_cons in Hin as [[= -> ->]|Hin]; [|by apply IH].
  by rewrite String.eqb_refl in E.
Qed.

Lemma merge_mujoco_node_excluded node fileIn in_ exclude out a :
  a ∈ exclude ->
  attribute (merge_mujoco_node node fileIn in_ exclude out).1 a = attribute out a.
Proof.
  intros Ha.
  destruct (merge_attrs_append node fileIn exclude (attributes_of in_) out)
    as (added & Hattrs & Hin & _).
  unfold attribute, merge_mujoco_node. rewrite Hattrs, attr_find_app.
  rewrite (attr_find_absent a added).
  - by destruct (attr_find a (attributes out)).
  - intros kv Hkv Heq. destruct (Hin kv Hkv) as (_ & Hex & _). by subst.
Qed.

Lemma omap_conflict_attrs node fileIn exclude out l :
  Forall (fun d => diag_node d = node /\ diag_file d = fileIn /\
                   (diag_attr d ∉ exclude) /\ (diag_attr d, diag_value_in d) ∈ l /\
                   attribute out (diag_attr d) = Some (diag_value_merged d) /\
                   diag_value_in d <> diag_value_merged d)
    (omap (conflict node fileIn exclude out) l).
Proof.
  induction l as [|[k v] l IH]; [constructor|].
  change (omap ?f ((k, v) :: l)) with
    (match f (k, v) with Some y => y :: omap f l | None => omap f l end).
  assert (Forall (fun d => diag_node d = node /\ diag_file d = fileIn /\
                   (diag_attr d ∉ exclude) /\ (diag_attr d, diag_value_in d) ∈ (k, v) :: l /\
                   attribute out (diag_attr d) = Some (diag_value_merged d) /\
                   diag_value_in d <> diag_value_merged d)
            (omap (conflict node fileIn exclude out) l)) as IH'.
  { eapply Forall_impl; [exact IH|]. intros d (? & ? & ? & ? & ?).
    repeat (split; [done|]). split; [by apply list_elem_of_further|done]. }
  unfold conflict at 1. cbn [fst snd].
  destruct (bool_decide (k ∈ exclude)) eqn:Hex; [done|].
  apply bool_decide_eq_false in Hex.
  destruct (attribute out k) as [w|] eqn:Hw; [|done].
  destruct (String.eqb_spec w v) as [->|Hne]; [done|].
  constructor; [|done]. simpl. repeat (split; [done|]).
  split; [apply list_elem_of_here|]. split; [done|]. congruence.
Qed.

(** X2: the compiler merge never copies [meshdir] or [texturedir] to the
    output and never warns about them; every other attribute follows the
    first-wins rule, and every warning is a compiler warning for the file
    being merged about an attribute whose source value differs from the
    value the output holds. *)
Theorem X2_compiler_directories_not_merged
    (fileIn : string) (in_ : option xml_node) (out : xml_node) :
  let merged := merge_mujoco_compiler fileIn in_ out in
  attribute merged.1 "meshdir" = attribute out "meshdir" /\
  attribute merged.1 "texturedir" = attribute out "texturedir" /\
  (forall a, a <> "meshdir" -> a <> "texturedir" ->
     attribute merged.1 a = first_wins (attribute out a) (attribute_of in_ a)) /\
  Forall (fun d => diag_node d = "compiler" /\ diag_file d = fileIn /\
                   diag_attr d <> "meshdir" /\ diag_attr d <> "texturedir" /\
                   attribute_of in_ (diag_attr d) <> None /\
                   attribute merged.1 (diag_attr d) = Some (diag_value_merged d) /\
                   diag_value_in d <> diag_value_merged d)
    merged.2.
Proof.
  intros merged. unfold merged, merge_mujoco_compiler.
  split; [|split; [|split]].
  - apply merge_mujoco_node_excluded, list_elem_of_In. simpl. tauto.
  - apply merge_mujoco_node_excluded, list_elem_of_In. simpl. tauto.
  - intros a Hm Ht. apply merge_mujoco_node_first_wins.
    intros Ha%list_elem_of_In. simpl in Ha. by destruct Ha as [<-|[<-|[]]].
  - unfold merge_mujoco_node. rewrite merge_attrs_log.
    eapply Forall_impl; [apply omap_conflict_attrs|].
    intros d (Hn & Hf & Hex & Hin & Hout & Hne). cbn beta.
    repeat (split; [done|]).
    split; [intros Heq; apply Hex; rewrite Heq; apply list_elem_of_In; simpl; tauto|].
    split; [intros Heq; apply Hex; rewrite Heq; apply list_elem_of_In; simpl; tauto|].
    split; [|done]. rewrite attribute_of_attr_find.
    apply attr_find_elem in Hin as [w Hw]. by rewrite Hw.
Qed.

Lemma X2_compiler_directories_witness :
  attribute
    (merge_mujoco_compiler "b.xml"
       (Some (Node "compiler" [("meshdir", "meshes"); ("angle", "degree")] []))
       (Node "compiler" [] [])).1 "angle" = Some "degree".
Proof.
  destruct (X2_compiler_directories_not_merged "b.xml"
              (Some (Node "compiler" [("meshdir", "meshes"); ("angle", "degree")] []))
              (Node "compiler" [] [])) as (_ & _ & Hother & _).
  rewrite (Hother "angle"); [reflexivity|discriminate|discriminate].
Defined.

(** ** Merging the same source again *)

Lemma merge_attrs_settled node fileIn exclude l : forall out,
  (forall kv, kv ∈ l -> kv.1 ∈ exclude \/ is_Some (attribute out kv.1)) ->
  (for_each l (merge_attr node fileIn exclude) out).1 = out.
Proof.
  induction l as [|x l IH]; intros out H; [done|].
  rewrite for_each_cons. cbn [fst].
  assert ((merge_attr node fileIn exclude x out).1 = out) as ->.
  { unfold merge_attr.
    destruct (H x (list_elem_of_here _ _)) as [Hex|[w Hw]].
    - by rewrite bool_decide_eq_true_2.
    - destruct (bool_decide _); [done|]. rewrite Hw. by destruct (String.eqb w x.2). }
  apply IH. intros kv Hkv. by apply H, list_elem_of_further.
Qed.

Lemma merge_attrs_present node fileIn exclude l out kv :
  kv ∈ l ->
  kv.1 ∈ exclude \/
  is_Some (attribute (for_each l (merge_attr node fileIn exclude) out).1 kv.1).
Proof.
  intros Hin. destruct (decide (kv.1 ∈ exclude)) as [|Hex]; [by left|right].
  rewrite merge_attrs_first_wins by done.
  destruct kv as [a v]. apply attr_find_elem in Hin as [w Hw]. simpl. rewrite Hw.
  by destruct (attribute out a).
Qed.

Lemma omap_all_None {A B} (f : A -> option B) l :
  (forall x, x ∈ l -> f x = None) -> omap f l = [].
Proof.
  induction l as [|x l IH]; intros H; [done|].
  change (omap f (x :: l)) with (match f x with Some y => y :: omap f l | None => omap f l end).
  rewrite (H x (list_elem_of_here _ _)). apply IH.
  intros y Hy. by apply H, list_elem_of_further.
Qed.

(** X3: merging the same source node a second time changes nothing and
    logs exactly the warnings of the first time.  A source whose
    attribute names are distinct, merged into a target without
    attributes, gives no warning at all, so two instances of one model
    never conflict with each other. *)
Theorem X3_merge_node_twice
    (node fileIn : string) (in_ : option xml_node) (exclude : list string)
    (out : xml_node) :
  let once := merge_mujoco_node node fileIn in_ exclude out in
  merge_mujoco_node node fileIn in_ exclude once.1 = once /\
  (NoDup (attributes_of in_).*1 -> attributes out = [] -> once.2 = []).
Proof.
  intros once. unfold once, merge_mujoco_node.
  set (l := attributes_of in_).
  assert ((for_each l (merge_attr node fileIn exclude)
             (for_each l (merge_attr node fileIn exclude) out).1).1 =
          (for_each l (merge_attr node fileIn exclude) out).1) as Hsame.
  { apply merge_attrs_settled. intros kv Hkv. by apply merge_attrs_present. }
  split.
  - apply injective_projections; [done|].
    by rewrite merge_attrs_log, Hsame, <- merge_attrs_log.
  - intros Hnd Hempty. rewrite merge_attrs_log.
    apply omap_all_None. intros [a v] Hin. unfold conflict. cbn [fst snd].
    destruct (bool_decide (a ∈ exclude)) eqn:Hex; [done|].
    apply bool_decide_eq_false in Hex.
    rewrite merge_attrs_first_wins by done.
    unfold attribute at 1. rewrite Hempty. cbn [attr_find first_wins].
    by rewrite (attr_find_NoDup a v l), String.eqb_refl.
Qed.

Lemma X3_merge_node_twice_witness :
  (merge_mujoco_node "option" "a.xml"
     (Some (Node "option" [("timestep", "0.001"); ("gravity", "0 0 -9.81")] []))
     [] (Node "option" [] [])).2 = [].
Proof.
  destruct (X3_merge_node_twice "option" "a.xml"
              (Some (Node "option" [("timestep", "0.001"); ("gravity", "0 0 -9.81")] []))
              [] (Node "option" [] [])) as [_ Hquiet].
  apply Hquiet; [|reflexivity].
  apply (bool_decide_unpack _). vm_compute. exact I.
Defined.

(** ** Size attributes outside the list *)

Lemma children_merge_size_attr in_ out a :
  children (merge_size_attr in_ out a) = children out.
Proof.
  unfold merge_size_attr. destruct (attribute_of in_ a); [|done].
  by destruct (attribute out a).
Qed.

Lemma merge_size_loop_absent in_ l : forall out,
  (forall a, a ∈ l -> attribute_of in_ a = None) ->
  foldl (merge_size_attr in_) out l = out.
Proof.
  induction l as [|a l IH]; intros out H; [done|]. simpl.
  unfold merge_size_attr at 2. rewrite (H a (list_elem_of_here _ _)).
  apply IH. intros b Hb. by apply H, list_elem_of_further.
Qed.

(** X4: [merge_mujoco_size] reads and writes the thirteen listed counters
    only: any other attribute of the source [size] node is never copied
    and any other attribute of the output keeps its value, the children
    and the tag of the output node stay, and a source that declares none
    of the counters (or no [size] section at all) leaves the output node
    exactly as it was. *)
Theorem X4_size_merge_ignores_other_attributes
    (in_ : option xml_node) (out : xml_node) :
  (forall b, b ∉ size_attributes ->
     attribute (merge_mujoco_size in_ out) b = attribute out b) /\
  children (merge_mujoco_size in_ out) = children out /\
  name (merge_mujoco_size in_ out) = name out /\
  ((forall a, a ∈ size_attributes -> attribute_of in_ a = None) ->
     merge_mujoco_size in_ out = out) /\
  merge_mujoco_size None out = out.
Proof.
  split; [|split; [|split; [|split]]].
  - intros b Hb. by apply merge_size_loop_other.
  - unfold merge_mujoco_size. generalize size_attributes as l. intros l. revert out.
    induction l as [|a l IH]; intros out; [done|].
    simpl. by rewrite IH, children_merge_size_attr.
  - apply name_merge_mujoco_size.
  - apply merge_size_loop_absent.
  - by apply merge_size_loop_absent.
Qed.

Lemma X4_size_merge_witness :
  attribute
    (merge_mujoco_size (Some (Node "size" [("memory", "10M"); ("njmax", "5")] []))
       (Node "size" [] [])) "memory" = None.
Proof.
  destruct (X4_size_merge_ignores_other_attributes
              (Some (Node "size" [("memory", "10M"); ("njmax", "5")] []))
              (Node "size" [] [])) as (Hother & _).
  rewrite Hother; [reflexivity|].
  intros H. apply (bool_decide_pack _) in H. vm_compute in H. exact H.
Defined.

(** ** Prefixing changes attribute values only *)

Lemma xml_node_forall_ind (P : xml_node -> Prop) :
  (forall nm ats cs, Forall P cs -> P (Node nm ats cs)) -> forall n, P n.
Proof.
  intros H. fix IH 1. intros [nm ats cs]. apply H.
  induction cs as [|c cs IHcs]; constructor; [apply IH|apply IHcs].
Qed.

Lemma keys_attr_set a v l : keys (attr_set a v l) = keys l.
Proof.
  induction l as [|[k w] l IH]; [done|]. simpl.
  destruct (String.eqb k a); simpl; [done|]. by rewrite IH.
Qed.

Lemma keys_add_prefix prefix n a : keys (attributes (add_prefix prefix n a)) = keys (attributes n).
Proof.
  unfold add_prefix. destruct (attribute n a); [|done]. apply keys_attr_set.
Qed.

Lemma keys_add_prefixes prefix attrs : forall n,
  keys (attributes (foldl (add_prefix prefix) n attrs)) = keys (attributes n).
Proof.
  induction attrs as [|a attrs IH]; intros n; [done|].
  simpl. by rewrite IH, keys_add_prefix.
Qed.

Lemma skeleton_add_prefix_recursively prefix attrs n :
  skeleton (add_prefix_recursively prefix attrs n) = skeleton n.
Proof.
  induction n as [nm ats cs IH] using xml_node_forall_ind.
  cbn [add_prefix_recursively skeleton]. f_equal.
  - apply (keys_add_prefixes prefix attrs (Node nm ats cs)).
  - rewrite map_map. apply map_ext_Forall, IH.
Qed.

(** X5: the recursive prefixer changes attribute values and nothing
    else: the tags, the names and order of the attributes and the nesting
    of a subtree are the same before and after, for every list of
    attribute names.  So the worldbody merge appends, after the children
    the output had, one copy per source child, in the source order, that
    differs from its source in attribute values only. *)
Theorem X5_prefixing_keeps_the_structure :
  (forall prefix attrs n,
     skeleton (add_prefix_recursively prefix attrs n) = skeleton n) /\
  (forall in_ robot out,
     map skeleton (children (merge_mujoco_worldbody in_ robot out)) =
     map skeleton (children out) ++ map skeleton (children_of in_)).
Proof.
  split; [apply skeleton_add_prefix_recursively|].
  intros in_ robot out. unfold merge_mujoco_worldbody.
  rewrite children_foldl_append_copy, map_app, map_map. f_equal.
  apply map_ext. intros c. apply skeleton_add_prefix_recursively.
Qed.

(** ** Prefixed names do not collide *)

Lemma append_inj_l p v w : p +:+ v = p +:+ w -> v = w.
Proof. induction p as [|c p IH]; simpl; [done|]. intros [= H]. by apply IH. Qed.

Lemma prefixed_inj r1 : forall r2 v w,
  no_underscore r1 = true -> no_underscore r2 = true ->
  prefixed r1 v = prefixed r2 w -> r1 = r2 /\ v = w.
Proof.
  unfold prefixed.
  induction r1 as [|c1 r1 IH]; intros [|c2 r2] v w H1 H2; cbn in *.
  - intros [= H]. by subst.
  - intros [= Hc _]. subst c2. done.
  - intros [= Hc _]. subst c1. done.
  - apply andb_true_iff in H1 as [_ H1]. apply andb_true_iff in H2 as [_ H2].
    intros [= Hc H]. destruct (IH r2 v w H1 H2 H) as [Hr Hv]. by subst.
Qed.

(** X6: prefixing keeps names apart.  Two nodes of one entity whose
    attribute had different values have different values afterwards, and
    two nodes of two entities whose identifiers contain no underscore
    have different values afterwards as soon as the identifiers or the
    old values differ. *)
Theorem X6_prefixed_names_stay_distinct
    (n m : xml_node) (a v w : string) :
  attribute n a = Some v ->
  attribute m a = Some w ->
  (forall r,
     v <> w ->
     attribute (add_prefix r n a) a <> attribute (add_prefix r m a) a) /\
  (forall r1 r2,
     no_underscore r1 = true -> no_underscore r2 = true ->
     r1 <> r2 \/ v <> w ->
     attribute (add_prefix r1 n a) a <> attribute (add_prefix r2 m a) a).
Proof.
  intros Hv Hw. split.
  - intros r Hne. rewrite !attribute_add_prefix, String.eqb_refl, Hv, Hw.
    intros [= H]. by apply append_inj_l, append_inj_l in H.
  - intros r1 r2 H1 H2 Hne. rewrite !attribute_add_prefix, String.eqb_refl, Hv, Hw.
    intros [= H]. apply prefixed_inj in H as [? ?]; [|done..]. by destruct Hne.
Qed.

Lemma X6_prefixed_names_witness :
  attribute (add_prefix "r1" (Node "body" [("name", "arm")] []) "name") "name" <>
  attribute (add_prefix "r2" (Node "body" [("name", "arm")] []) "name") "name".
Proof.
  destruct (X6_prefixed_names_stay_distinct (Node "body" [("name", "arm")] [])
              (Node "body" [("name", "arm")] []) "name" "arm" "arm" eq_refl eq_refl)
    as [_ Htwo].
  apply (Htwo "r1" "r2"); [reflexivity|reflexivity|].
  left. discriminate.
Defined.

(** ** Two merges through one handle *)

(** X7: a section is looked up or created once and then reused: merging
    into the child [nm] of a node and then again into its child [nm] is
    the same, tree and warnings, as getting the child once and running
    both mergers on it, whenever the first merger keeps the tag of the
    child (as every merger here does). *)
Theorem X7_second_reference_reuses_the_node
    (nm : string) (e1 e2 : edit) (out : xml_node) :
  keeps_name e1 ->
  (in_child nm e1 >> in_child nm e2) out = in_child nm (e1 >> e2) out.
Proof.
  intros He1. rewrite edit_seq_eq.
  destruct (find_child nm (children out)) as [[i c]|] eqn:E.
  - pose proof E as [Hi Hc]%find_child_Some.
    rewrite (in_child_found nm e1 out i c E). cbn [fst snd].
    rewrite (in_child_found nm e2 _ i (e1 c).1).
    + rewrite (in_child_found nm (e1 >> e2) out i c E).
      cbn [name attributes children fst snd].
      rewrite list_insert_insert_eq, edit_seq_eq. done.
    + cbn [children]. rewrite (find_child_insert nm _ i c) by by rewrite ?He1.
      rewrite E. simpl. by rewrite decide_True.
  - rewrite (in_child_created nm e1 out E). cbn [fst snd].
    rewrite (in_child_found nm e2 _ (length (children out)) (e1 (fresh nm)).1).
    + rewrite (in_child_created nm (e1 >> e2) out E).
      cbn [name attributes children fst snd].
      rewrite insert_app_r_alt, Nat.sub_diag, edit_seq_eq by done. done.
    + cbn [children]. rewrite find_child_app, E, He1. simpl.
      by rewrite String.eqb_refl.
Qed.

Lemma X7_second_reference_witness :
  (in_child "flag" (merge_mujoco_node "option/flag" "a.xml"
                      (Some (Node "flag" [("gravity", "enable")] [])) []) >>
   in_child "flag" (merge_mujoco_node "option/flag" "b.xml"
                      (Some (Node "flag" [("gravity", "disable")] [])) []))
    (Node "option" [] []) =
  (Node "option" [] [Node "flag" [("gravity", "enable")] []],
   [Diagnostic "option/flag" "gravity" "b.xml" "disable" "enable"]).
Proof.
  rewrite X7_second_reference_reuses_the_node.
  - reflexivity.
  - apply keeps_name_merge_mujoco_node.
Defined.

(** ** The sections that copy and rename *)

Lemma copied_with_add_prefixes robot attrs c :
  NoDup attrs -> copied_with robot attrs (foldl (add_prefix robot) c attrs) c.
Proof.
  intros Hnd. unfold copied_with.
  split; [apply name_add_prefixes|]. split; [apply children_add_prefixes|].
  split; [apply keys_add_prefixes|]. intros b.
  destruct (bool_decide (b ∈ attrs)) eqn:Hb.
  - apply bool_decide_eq_true in Hb. by apply attribute_add_prefixes.
  - apply bool_decide_eq_false in Hb. by apply attribute_add_prefixes_other.
Qed.

Lemma Forall2_copies {A} (R : xml_node -> A -> Prop) (f : A -> xml_node) l :
  (forall x, x ∈ l -> R (f x) x) -> Forall2 R (map f l) l.
Proof.
  induction l as [|x l IH]; intros H; [constructor|].
  constructor; [apply H, list_elem_of_here|].
  apply IH. intros y Hy. by apply H, list_elem_of_further.
Qed.

(** X8: the contact merge copies the [pair] children and then the
    [exclude] children of the source, in their order, behind the children
    the output had, and nothing else.  A pair is copied with [name],
    [class], [geom1] and [geom2] prefixed, an exclude with [name],
    [body1] and [body2] prefixed; every other attribute and the children
    of a copy are those of its source. *)
Theorem X8_contact_copies_pairs_and_excludes
    (in_ : option xml_node) (robot : string) (out : xml_node) :
  exists pairs excludes,
    children (merge_mujoco_contact in_ robot out) = children out ++ pairs ++ excludes /\
    Forall2 (copied_with robot ["name"; "class"; "geom1"; "geom2"])
      pairs (children_named_of in_ "pair") /\
    Forall2 (copied_with robot ["name"; "body1"; "body2"])
      excludes (children_named_of in_ "exclude") /\
    attributes (merge_mujoco_contact in_ robot out) = attributes out /\
    name (merge_mujoco_contact in_ robot out) = name out.
Proof.
  eexists _, _. unfold merge_mujoco_contact, copy_and_add_prefix.
  split; [|split; [|split; [|split]]].
  - by rewrite !children_foldl_append_copy, <- app_assoc.
  - apply Forall2_copies. intros c _. apply copied_with_add_prefixes.
    apply (bool_decide_unpack _). by vm_compute.
  - apply Forall2_copies. intros c _. apply copied_with_add_prefixes.
    apply (bool_decide_unpack _). by vm_compute.
  - by rewrite !attributes_foldl_append_copy.
  - by rewrite !name_foldl_append_copy.
Qed.

(** X9: the actuator merge copies every child of the source section, in
    order, behind the children the output had; in a copy [name], [class],
    [joint], [jointinparent], [site], [tendon], [cranksite] and
    [slidersite] are prefixed, and every other attribute (gear, control
    range, ...) and the children are those of the source. *)
Theorem X9_actuator_copies_every_child
    (in_ : option xml_node) (robot : string) (out : xml_node) :
  exists added,
    children (merge_mujoco_actuator in_ robot out) = children out ++ added /\
    Forall2 (copied_with robot
               ["name"; "class"; "joint"; "jointinparent"; "site"; "tendon";
                "cranksite"; "slidersite"])
      added (children_of in_) /\
    attributes (merge_mujoco_actuator in_ robot out) = attributes out /\
    name (merge_mujoco_actuator in_ robot out) = name out.
Proof.
  eexists. unfold merge_mujoco_actuator. split; [|split; [|split]].
  - by rewrite children_foldl_append_copy.
  - apply Forall2_copies. intros c _. apply copied_with_add_prefixes.
    apply (bool_decide_unpack _). by vm_compute.
  - by rewrite attributes_foldl_append_copy.
  - by rewrite name_foldl_append_copy.
Qed.

(** X10: the sensor merge copies every child of the source section, in
    order, behind the children the output had; in a copy [name], [site],
    [joint], [actuator], [tendon], [objname] and [body] are prefixed, and
    every other attribute and the children are those of the source. *)
Theorem X10_sensor_copies_every_child
    (in_ : option xml_node) (robot : string) (out : xml_node) :
  exists added,
    children (merge_mujoco_sensor in_ robot out) = children out ++ added /\
    Forall2 (copied_with robot
               ["name"; "site"; "joint"; "actuator"; "tendon"; "objname"; "body"])
      added (children_of in_) /\
    attributes (merge_mujoco_sensor in_ robot out) = attributes out /\
    name (merge_mujoco_sensor in_ robot out) = name out.
Proof.
  eexists. unfold merge_mujoco_sensor. split; [|split; [|split]].
  - by rewrite children_foldl_append_copy.
  - apply Forall2_copies. intros c _. apply copied_with_add_prefixes.
    apply (bool_decide_unpack _). by vm_compute.
  - by rewrite attributes_foldl_append_copy.
  - by rewrite name_foldl_append_copy.
Qed.

Lemma fmap_prefixed_inj robot (x y : option string) :
  prefixed robot <$> x = prefixed robot <$> y <-> x = y.
Proof.
  split; [|by intros ->].
  destruct x as [v|], y as [w|]; simpl; try done.
  intros [= H]. unfold prefixed in H. by apply append_inj_l, append_inj_l in H as ->.
Qed.

Lemma reference_kept robot attrs c' c m b :
  copied_with robot attrs c' c -> b ∈ attrs ->
  attribute c' b = attribute (add_prefix_recursively robot worldbody_attrs m) "name" <->
  attribute c b = attribute m "name".
Proof.
  intros (_ & _ & _ & Hattr) Hb.
  rewrite Hattr, bool_decide_eq_true_2 by done.
  unfold attribute at 2. rewrite attributes_add_prefix_recursively.
  fold (attribute (foldl (add_prefix robot) m worldbody_attrs) "name").
  rewrite attribute_add_prefixes.
  - apply fmap_prefixed_inj.
  - apply worldbody_attrs_NoDup.
  - apply list_elem_of_In. simpl. tauto.
Qed.

Lemma references_kept robot attrs refs added l m :
  refs ⊆ attrs ->
  Forall2 (copied_with robot attrs) added l ->
  Forall2 (fun c' c =>
             Forall (fun b =>
                       attribute c' b =
                         attribute (add_prefix_recursively robot worldbody_attrs m) "name" <->
                       attribute c b = attribute m "name") refs)
    added l.
Proof.
  intros Hsub H. eapply Forall2_impl; [exact H|].
  intros c' c Hc. apply Forall_forall. intros b Hb.
  eapply reference_kept; [exact Hc|]. by apply Hsub.
Qed.

(** X11: a reference follows the node it names.  Take any worldbody node
    [m] of the entity and its renamed copy.  In the copy of an actuator,
    [joint], [jointinparent], [site], [cranksite] and [slidersite] name
    the copy of [m] exactly when they named [m] in the source; the same
    holds for [site], [joint], [body] and [objname] of a sensor, for
    [geom1] and [geom2] of a contact pair and for [body1] and [body2] of
    a contact exclude.  Renaming neither breaks nor creates a reference
    inside one entity. *)
Theorem X11_references_follow_renamed_nodes
    (robot : string) (m : xml_node) (in_ : option xml_node) (out : xml_node) :
  let m' := add_prefix_recursively robot worldbody_attrs m in
  let refers (refs : list string) (c' c : xml_node) :=
    Forall (fun b => attribute c' b = attribute m' "name" <->
                     attribute c b = attribute m "name") refs in
  (exists added,
     children (merge_mujoco_actuator in_ robot out) = children out ++ added /\
     Forall2 (refers ["joint"; "jointinparent"; "site"; "cranksite"; "slidersite"])
       added (children_of in_)) /\
  (exists added,
     children (merge_mujoco_sensor in_ robot out) = children out ++ added /\
     Forall2 (refers ["site"; "joint"; "body"; "objname"]) added (children_of in_)) /\
  (exists pairs excludes,
     children (merge_mujoco_contact in_ robot out) = children out ++ pairs ++ excludes /\
     Forall2 (refers ["geom1"; "geom2"]) pairs (children_named_of in_ "pair") /\
     Forall2 (refers ["body1"; "body2"]) excludes (children_named_of in_ "exclude")).
Proof.
  intros m' refers. split; [|split].
  - eexists. unfold merge_mujoco_actuator. split; [by rewrite children_foldl_append_copy|].
    eapply references_kept; [|apply Forall2_copies; intros c _; apply copied_with_add_prefixes].
    + intros b Hb%list_elem_of_In. apply list_elem_of_In. simpl in *. tauto.
    + apply (bool_decide_unpack _). by vm_compute.
  - eexists. unfold merge_mujoco_sensor. split; [by rewrite children_foldl_append_copy|].
    eapply references_kept; [|apply Forall2_copies; intros c _; apply copied_with_add_prefixes].
    + intros b Hb%list_elem_of_In. apply list_elem_of_In. simpl in *. tauto.
    + apply (bool_decide_unpack _). by vm_compute.
  - eexists _, _. unfold merge_mujoco_contact, copy_and_add_prefix.
    split; [by rewrite !children_foldl_append_copy, <- app_assoc|]. split.
    + eapply references_kept;
        [|apply Forall2_copies; intros c _; apply copied_with_add_prefixes].
      * intros b Hb%list_elem_of_In. apply list_elem_of_In. simpl in *. tauto.
      * apply (bool_decide_unpack _). by vm_compute.
    + eapply references_kept;
        [|apply Forall2_copies; intros c _; apply copied_with_add_prefixes].
      * intros b Hb%list_elem_of_In. apply list_elem_of_In. simpl in *. tauto.
      * apply (bool_decide_unpack _). by vm_compute.
Qed.

(** ** The asset section *)

Lemma keys_update_file cwd dir n :
  keys (attributes (update_file cwd dir n)) = keys (attributes n).
Proof.
  unfold update_file. destruct (attribute n "file") as [v|]; [|done].
  destruct (bfs.is_absolute v); [done|]. apply keys_attr_set.
Qed.

Lemma children_update_file cwd dir n : children (update_file cwd dir n) = children n.
Proof.
  unfold update_file. destruct (attribute n "file") as [v|]; [|done].
  by destruct (bfs.is_absolute v).
Qed.

Lemma attribute_update_file_other cwd dir n b :
  b <> "file" -> attribute (update_file cwd dir n) b = attribute n b.
Proof.
  intros Hb. unfold update_file. destruct (attribute n "file") as [v|]; [|done].
  destruct (bfs.is_absolute v); [done|]. by apply attribute_set_value_ne.
Qed.

Lemma renamed_asset_update cwd dir robot n :
  renamed_asset robot (update_file cwd dir (update_name robot n)) n.
Proof.
  unfold renamed_asset, update_name. split; [|split; [|split]].
  - by rewrite name_update_file, name_add_prefix.
  - by rewrite keys_update_file, keys_add_prefix.
  - rewrite attribute_update_file_other by done.
    by rewrite attribute_add_prefix, String.eqb_refl.
  - intros b Hname Hfile. rewrite attribute_update_file_other by done.
    rewrite attribute_add_prefix. by destruct (String.eqb_spec "name" b).
Qed.

Lemma renamed_bones robot s :
  Forall2 (renamed_bone robot) (children (prefix_bones robot s)) (children s).
Proof.
  unfold prefix_bones. cbn [children]. apply Forall2_copies. intros b _.
  unfold renamed_bone. destruct (String.eqb (name b) "bone"); [|done].
  apply (copied_with_add_prefixes robot ["body"] b).
  apply (bool_decide_unpack _). by vm_compute.
Qed.

(** X12: the asset merge appends its copies grouped by type, whatever
    their order in the source: first every [hfield], then every [skin],
    [material], [texture] and [mesh], each group in source order; a child
    of the source asset section with any other tag is not copied.  Every
    copy has its [name] prefixed; a material also its [texture]; in a
    skin every [bone] child has its [body] prefixed; apart from [file],
    nothing else changes. *)
Theorem X12_asset_copies_grouped_by_type
    (cwd : string) (in_ : option xml_node) (meshPath texturePath robot : string)
    (out : xml_node) :
  exists hfields skins materials textures meshes,
    children (merge_mujoco_asset cwd in_ meshPath texturePath robot out) =
      children out ++ hfields ++ skins ++ materials ++ textures ++ meshes /\
    Forall2 (copied_with robot ["name"]) hfields (children_named_of in_ "hfield") /\
    Forall2 (fun s' s => renamed_asset robot s' s /\
                         Forall2 (renamed_bone robot) (children s') (children s))
      skins (children_named_of in_ "skin") /\
    Forall2 (copied_with robot ["name"; "texture"])
      materials (children_named_of in_ "material") /\
    Forall2 (fun c' c => renamed_asset robot c' c /\ children c' = children c)
      textures (children_named_of in_ "texture") /\
    Forall2 (fun c' c => renamed_asset robot c' c /\ children c' = children c)
      meshes (children_named_of in_ "mesh").
Proof.
  eexists _, _, _, _, _. split; [apply merge_mujoco_asset_children|].
  split; [|split; [|split; [|split]]].
  - apply Forall2_copies. intros c _.
    apply (copied_with_add_prefixes robot ["name"] c).
    apply (bool_decide_unpack _). by vm_compute.
  - apply Forall2_copies. intros s _. split.
    + destruct (renamed_asset_update cwd meshPath robot s) as (? & ? & ? & ?).
      by repeat split.
    + pose proof (renamed_bones robot (update_file cwd meshPath (update_name robot s))) as H.
      unfold update_name in H at 2.
      by rewrite children_update_file, children_add_prefix in H.
  - apply Forall2_copies. intros c _.
    apply (copied_with_add_prefixes robot ["name"; "texture"] c).
    apply (bool_decide_unpack _). by vm_compute.
  - apply Forall2_copies. intros c _. split; [apply renamed_asset_update|].
    unfold update_name. by rewrite children_update_file, children_add_prefix.
  - apply Forall2_copies. intros c _. split; [apply renamed_asset_update|].
    unfold update_name. by rewrite children_update_file, children_add_prefix.
Qed.

(** ** Sections merged child by child *)

Lemma leaf_merge_attribute (body : xml_node -> edit) t a l :
  (forall c out, name c = t ->
     section_attribute (body c out).1 t a =
     first_wins (section_attribute out t a) (attribute c a)) ->
  (forall c out, name c <> t ->
     section_attribute (body c out).1 t a = section_attribute out t a) ->
  forall out,
    section_attribute (for_each l body out).1 t a =
    foldl first_wins (section_attribute out t a)
      ((fun c => attribute c a) <$> filter (fun c => name c = t) l).
Proof.
  intros Hsame Hother. induction l as [|c l IH]; intros out; [done|].
  rewrite for_each_cons. cbn [fst]. rewrite IH, filter_cons.
  destruct (decide (name c = t)) as [Hc|Hc].
  - simpl. by rewrite Hsame.
  - by rewrite Hother.
Qed.

Lemma in_child_merge_same nodeName fileIn c out a :
  section_attribute
    (in_child (name c) (merge_mujoco_node nodeName fileIn (Some c) []) out).1 (name c) a =
  first_wins (section_attribute out (name c) a) (attribute c a).
Proof.
  unfold section_attribute at 1.
  rewrite in_child_same by apply keeps_name_merge_mujoco_node.
  change (attribute (merge_mujoco_node nodeName fileIn (Some c) []
                       (section_of out (name c))).1 a =
          first_wins (section_attribute out (name c) a) (attribute c a)).
  rewrite merge_mujoco_node_first_wins by apply not_elem_of_nil.
  by rewrite attribute_section_of.
Qed.

Lemma in_child_merge_other nodeName fileIn c out t a :
  name c <> t ->
  section_attribute
    (in_child (name c) (merge_mujoco_node nodeName fileIn (Some c) []) out).1 t a =
  section_attribute out t a.
Proof.
  intros Hne. unfold section_attribute.
  by rewrite in_child_other by (done || apply keeps_name_merge_mujoco_node).
Qed.

Lemma child_append_copy_other out c t :
  name c <> t -> child (append_copy out c) t = child out t.
Proof.
  intros Hne. unfold child, append_copy. cbn [children].
  rewrite find_child_app.
  destruct (find_child t (children out)) as [[i d]|]; [done|].
  by apply String.eqb_neq in Hne as ->.
Qed.

Lemma filter_insert_same {A} (P : A -> Prop) `{forall x, Decision (P x)}
    (l : list A) (i : nat) (x y : A) :
  l !! i = Some x -> ~ P x -> ~ P y -> filter P (<[i := y]> l) = filter P l.
Proof.
  revert i. induction l as [|z l IH]; intros i Hi Hx Hy; [done|].
  destruct i as [|i]; simpl in *.
  - injection Hi as ->. by rewrite !filter_cons_False.
  - rewrite !filter_cons. rewrite (IH i) by done. done.
Qed.

Lemma in_child_keeps_named nm e out t :
  keeps_name e -> nm <> t ->
  children_named (in_child nm e out).1 t = children_named out t.
Proof.
  intros He Hne. unfold children_named.
  destruct (find_child nm (children out)) as [[i c]|] eqn:E.
  - erewrite in_child_found by done. cbn [fst children].
    pose proof E as [Hi Hc]%find_child_Some.
    apply (filter_insert_same _ _ i c); [done|congruence|rewrite He; congruence].
  - rewrite in_child_created by done. cbn [fst children].
    rewrite filter_app, filter_cons_False, filter_nil, app_nil_r; [done|].
    rewrite He. done.
Qed.

(** X13: the visual merge folds every child of the source section into
    the output child with the same tag, creating it when it is missing:
    an attribute of such a child ends with the value the output had, or
    else with the value of the first source child of that tag that has
    it.  The attributes of the [visual] node itself are never merged. *)
Theorem X13_visual_children_merge_first_wins
    (fileIn : string) (in_ : option xml_node) (out : xml_node) (t a : string) :
  let merged := (merge_mujoco_visual fileIn in_ out).1 in
  section_attribute merged t a =
    foldl first_wins (section_attribute out t a)
      ((fun c => attribute c a) <$> children_named_of in_ t) /\
  attributes merged = attributes out /\
  map name (children merged) = foldl add_name (map name (children out)) (name <$> children_of in_).
Proof.
  intros merged. subst merged. unfold merge_mujoco_visual. split; [|split].
  - assert (children_named_of in_ t = filter (fun c => name c = t) (children_of in_)) as ->
      by by destruct in_.
    apply leaf_merge_attribute.
    + intros c o <-. apply in_child_merge_same.
    + intros c o Hne. by apply in_child_merge_other.
  - generalize (children_of in_) as l. intros l. revert out.
    induction l as [|c l IH]; intros out; [done|].
    rewrite for_each_cons. cbn [fst]. by rewrite IH, in_child_attributes.
  - generalize (children_of in_) as l. intros l. revert out.
    induction l as [|c l IH]; intros out; [done|].
    rewrite for_each_cons. cbn [fst]. rewrite IH. simpl. f_equal.
    apply in_child_names, keeps_name_merge_mujoco_node.
Qed.

(** X14: the default merge treats the two kinds of children apart.  A
    nested [default] block of the source is never merged into an
    existing one: each is appended as a further [default] child, in
    source order, with [class], [material], [hfield], [mesh] and [target]
    prefixed throughout the block.  Every other child is folded, first
    value wins, into the output child with its tag. *)
Theorem X14_default_blocks_appended_leaves_merged
    (fileIn : string) (in_ : option xml_node) (robot : string) (out : xml_node) :
  let merged := (merge_mujoco_default fileIn in_ robot out).1 in
  children_named merged "default" =
    children_named out "default"
    ++ map (add_prefix_recursively robot ["class"; "material"; "hfield"; "mesh"; "target"])
         (children_named_of in_ "default") /\
  (forall t a, t <> "default" ->
     section_attribute merged t a =
       foldl first_wins (section_attribute out t a)
         ((fun c => attribute c a) <$> children_named_of in_ t)) /\
  attributes merged = attributes out.
Proof.
  intros merged. subst merged. unfold merge_mujoco_default. split; [|split].
  - assert (children_named_of in_ "default" =
            filter (fun c => name c = "default") (children_of in_)) as -> by by destruct in_.
    generalize (children_of in_) as l. intros l. revert out.
    induction l as [|c l IH]; intros out; [by rewrite app_nil_r|].
    rewrite for_each_cons. cbn [fst]. rewrite IH, filter_cons.
    destruct (String.eqb_spec (name c) "default") as [Hc|Hc].
    + rewrite decide_True by done. unfold silent, children_named, append_copy.
      cbn [fst children]. rewrite filter_app, filter_cons_True, filter_nil.
      * by rewrite <- app_assoc.
      * destruct c. simpl in *. done.
    + rewrite decide_False by done.
      by rewrite in_child_keeps_named by (done || apply keeps_name_merge_mujoco_node).
  - intros t a Ht.
    assert (children_named_of in_ t = filter (fun c => name c = t) (children_of in_)) as ->
      by by destruct in_.
    apply leaf_merge_attribute.
    + intros c o <-. destruct (String.eqb_spec (name c) "default"); [done|].
      apply in_child_merge_same.
    + intros c o Hne. destruct (String.eqb_spec (name c) "default") as [Hc|Hc].
      * unfold silent, section_attribute. cbn [fst].
        rewrite child_append_copy_other; [done|].
        destruct c. simpl in *. congruence.
      * by apply in_child_merge_other.
  - generalize (children_of in_) as l. intros l. revert out.
    induction l as [|c l IH]; intros out; [done|].
    rewrite for_each_cons. cbn [fst]. rewrite IH.
    destruct (String.eqb (name c) "default"); [done|]. apply in_child_attributes.
Qed.

Lemma X14_default_witness :
  section_attribute
    (merge_mujoco_default "b.xml"
       (Some (Node "default" [] [Node "geom" [("rgba", "1 0 0 1")] []]))
       "r2" (Node "default" [] [Node "geom" [("rgba", "0 0 1 1")] []])).1 "geom" "rgba" =
  Some "0 0 1 1".
Proof.
  destruct (X14_default_blocks_appended_leaves_merged "b.xml"
              (Some (Node "default" [] [Node "geom" [("rgba", "1 0 0 1")] []]))
              "r2" (Node "default" [] [Node "geom" [("rgba", "0 0 1 1")] []]))
    as (_ & Hleaf & _).
  rewrite (Hleaf "geom" "rgba"); [reflexivity|discriminate].
Defined.

(** ** The option section and its flags *)

Lemma children_merge_mujoco_node node fileIn in_ exclude out :
  children (merge_mujoco_node node fileIn in_ exclude out).1 = children out.
Proof.
  by destruct (merge_attrs_append node fileIn exclude (attributes_of in_) out)
    as (added & _ & _ & ?).
Qed.

(** X15: the option merge applies the first-wins rule to the attributes
    of the [option] node and to those of its [flag] child, for which only
    the first [flag] child of the source counts and one [flag] child of
    the output is used, created if needed.  A source without [flag]
    child leaves the children of the output alone, and no other child of
    the output is ever touched. *)
Theorem X15_option_and_flag_first_wins
    (fileIn : string) (in_ : option xml_node) (out : xml_node) :
  let merged := (merge_mujoco_option fileIn in_ out).1 in
  (forall a, attribute merged a = first_wins (attribute out a) (attribute_of in_ a)) /\
  (forall a, section_attribute merged "flag" a =
             first_wins (section_attribute out "flag" a)
               (attribute_of (child_of in_ "flag") a)) /\
  (child_of in_ "flag" = None -> children merged = children out) /\
  (forall t, t <> "flag" -> child merged t = child out t).
Proof.
  intros merged. subst merged. split; [apply merge_mujoco_option_first_wins|].
  unfold merge_mujoco_option. rewrite edit_seq_eq. cbn [fst].
  set (out1 := (merge_mujoco_node "option" fileIn in_ [] out).1).
  assert (children out1 = children out) as Hsame by apply children_merge_mujoco_node.
  assert (forall t, child out1 t = child out t) as Hchild
    by (intros t; unfold child; by rewrite Hsame).
  destruct (child_of in_ "flag") as [flag|]; cbn [fst silent id].
  - split; [|split; [done|]].
    + intros a. unfold section_attribute at 1.
      rewrite in_child_same by apply keeps_name_merge_mujoco_node.
      change (attribute (merge_mujoco_node "option/flag" fileIn (Some flag) []
                           (section_of out1 "flag")).1 a =
              first_wins (section_attribute out "flag" a) (attribute flag a)).
      rewrite merge_mujoco_node_first_wins by apply not_elem_of_nil.
      unfold section_of, section_attribute. rewrite Hchild.
      by destruct (child out "flag").
    + intros t Ht. rewrite in_child_other; [apply Hchild| |done].
      apply keeps_name_merge_mujoco_node.
  - split; [|split; [done|]].
    + intros a. unfold section_attribute. rewrite Hchild.
      by destruct (attribute_of (child out "flag") a).
    + intros t _. apply Hchild.
Qed.

Lemma X15_option_and_flag_witness :
  children
    (merge_mujoco_option "b.xml" (Some (Node "option" [("timestep", "0.002")] []))
       (Node "option" [] [Node "flag" [("gravity", "enable")] []])).1 =
  [Node "flag" [("gravity", "enable")] []].
Proof.
  destruct (X15_option_and_flag_first_wins "b.xml"
              (Some (Node "option" [("timestep", "0.002")] []))
              (Node "option" [] [Node "flag" [("gravity", "enable")] []]))
    as (_ & _ & Hnone & _).
  apply Hnone. reflexivity.
Defined.

(** ** The lists of the orchestrator *)

Section Lists.

Variable cwd : string.

Lemma merge_loop_same_files load_file load_file' robots : forall xmlFiles out log,
  (forall f, f ∈ take (length robots) xmlFiles -> load_file f = load_file' f) ->
  merge_loop cwd load_file robots xmlFiles out log =
  merge_loop cwd load_file' robots xmlFiles out log.
Proof.
  induction robots as [|robot robots IH]; intros xmlFiles out log H; [done|].
  destruct xmlFiles as [|f xmlFiles]; [done|]. simpl in *.
  unfold merge_mujoco_model. rewrite <- (H f) by apply list_elem_of_here.
  destruct (load_file f) as [doc|]; [|done].
  destruct (child doc "mujoco") as [root|]; [|done].
  destruct (merge_sections cwd robot f root out) as [out1 log1].
  apply IH. intros g Hg. by apply H, list_elem_of_further.
Qed.

Lemma merge_loop_throws_early load_file good : forall robots bad rest out log,
  (length (good ++ bad :: rest) <= length robots)%nat ->
  Forall (fun f => is_Some (root_of load_file f)) good ->
  root_of load_file bad = None ->
  merge_loop cwd load_file robots (good ++ bad :: rest) out log =
  ((merge_loop cwd load_file (take (length good) robots) good out log).1,
   Throw (error_message load_file bad)).
Proof.
  induction good as [|f good IH]; intros robots bad rest out log Hlen Hgood Hbad.
  - destruct robots as [|robot robots]; [simpl in Hlen; lia|]. simpl.
    by rewrite merge_mujoco_model_failed.
  - destruct robots as [|robot robots]; [simpl in Hlen; lia|].
    apply Forall_cons in Hgood as [[root Hroot] Hgood]. simpl.
    rewrite (merge_mujoco_model_loaded _ _ _ _ root) by done.
    destruct (merge_sections cwd robot f root out) as [out1 log1].
    apply IH; [|done..]. simpl in Hlen. lia.
Qed.

End Lists.

(** X16: the loop runs over the identifiers, so only the first
    [robots.size()] files count: a file listed beyond them is never
    loaded, and the whole result is the same for any two file systems
    that agree on those first files. *)
Theorem X16_files_beyond_identifiers_never_loaded
    (cwd : string) (load_file load_file' : string -> option xml_node)
    (robots xmlFiles : list string) :
  (forall f, f ∈ take (length robots) xmlFiles -> load_file f = load_file' f) ->
  merge_mujoco_models cwd load_file robots xmlFiles =
  merge_mujoco_models cwd load_file' robots xmlFiles.
Proof.
  intros H. unfold merge_mujoco_models.
  by rewrite (merge_loop_same_files cwd load_file load_file').
Qed.

Lemma X16_files_beyond_identifiers_witness :
  merge_mujoco_models "/home/user" sample_files ["r1"] ["/opt/r1/a.xml"; "/opt/missing.xml"] =
  merge_mujoco_models "/home/user" (fun _ => Some sample_a) ["r1"]
    ["/opt/r1/a.xml"; "/opt/missing.xml"].
Proof.
  apply X16_files_beyond_identifiers_never_loaded.
  intros f Hf. apply list_elem_of_singleton in Hf as ->. reflexivity.
Defined.

(** X17: a listed file that cannot be loaded, or has no [mujoco] root,
    aborts the merge also when there are more identifiers than files: the
    loop meets the first such file before it reaches the end of the file
    vector, so the call raises the error of that file, writes nothing,
    and has logged only what the entities before that file logged. *)
Theorem X17_failed_load_aborts_before_the_end_of_the_files
    (cwd : string) (load_file : string -> option xml_node)
    (robots good rest : list string) (bad : string) :
  (length (good ++ bad :: rest) <= length robots)%nat ->
  length (good ++ bad :: rest) <> 1%nat ->
  Forall (fun f => is_Some (root_of load_file f)) good ->
  root_of load_file bad = None ->
  let r := merge_mujoco_models cwd load_file robots (good ++ bad :: rest) in
  returned r = Throw (error_message load_file bad) /\
  written r = None /\
  diagnostics r = (merge_loop cwd load_file (take (length good) robots) good new_root []).1.
Proof.
  intros Hlen Hmulti Hgood Hbad r. subst r. unfold merge_mujoco_models.
  rewrite (merge_loop_throws_early cwd load_file good robots bad rest) by done.
  destruct (good ++ bad :: rest) as [|f [|g l]]; [done| |done].
  by destruct Hmulti.
Qed.

Lemma X17_failed_load_witness :
  returned (merge_mujoco_models "/home/user" sample_files ["r1"; "r2"; "r3"; "r4"]
              (["/opt/r1/a.xml"] ++ "/opt/missing.xml" :: [])) =
  Throw "Failed to load /opt/missing.xml".
Proof.
  destruct (X17_failed_load_aborts_before_the_end_of_the_files "/home/user" sample_files
              ["r1"; "r2"; "r3"; "r4"] ["/opt/r1/a.xml"] [] "/opt/missing.xml")
    as (Hret & _).
  - simpl. lia.
  - discriminate.
  - repeat constructor. by eexists.
  - reflexivity.
  - exact Hret.
Defined.

(** ** The root of the written document *)

Lemma run_blocks_attributes bs : forall out,
  attributes (run_blocks bs out).1 = attributes out.
Proof.
  induction bs as [|b bs IH]; intros out; [done|].
  unfold run_blocks in *. rewrite for_each_cons. cbn [fst].
  by rewrite IH, in_child_attributes.
Qed.

(** X18: whatever the source documents hold, a written document is the
    document node with the single root [mujoco] whose only attribute is
    [model="mc_mujoco"] (the model names of the sources are dropped), and
    the children of that root are the ten sections in their fixed order,
    or none at all when there was no identifier. *)
Theorem X18_written_root
    (cwd : string) (load_file : string -> option xml_node)
    (robots xmlFiles : list string) (p : string) (doc : xml_node) :
  written (merge_mujoco_models cwd load_file robots xmlFiles) = Some (p, doc) ->
  p = "/tmp/mc_mujoco.xml" /\
  exists sections,
    doc = Node "" [] [Node "mujoco" [("model", "mc_mujoco")] sections] /\
    map name sections = match robots with [] => [] | _ => section_tags end.
Proof.
  intros (_ & log & out & Hloop & -> & -> & Hname)%written_inv. split; [done|].
  assert (attributes out = [("model", "mc_mujoco")]) as Hattrs.
  { revert Hloop.
    apply (merge_loop_invariant cwd load_file
             (fun o => attributes o = [("model", "mc_mujoco")])); [|done].
    intros robot xmlFile root o _ <-. apply run_blocks_attributes. }
  apply merge_loop_names in Hloop; [|by left].
  exists (children out). split.
  - destruct out as [nm ats cs]. simpl in *. by subst.
  - rewrite Hloop. by destruct robots.
Qed.

Lemma X18_written_root_witness :
  exists sections,
    written (merge_mujoco_models "/home/user" sample_files
               ["r1"; "r2"] ["/opt/r1/a.xml"; "/opt/r2/b.xml"]) =
      Some ("/tmp/mc_mujoco.xml", Node "" [] [Node "mujoco" [("model", "mc_mujoco")] sections]) /\
    map name sections = section_tags.
Proof.
  destruct (written (merge_mujoco_models "/home/user" sample_files
                       ["r1"; "r2"] ["/opt/r1/a.xml"; "/opt/r2/b.xml"]))
    as [[p doc]|] eqn:E; [|vm_compute in E; discriminate E].
  destruct (X18_written_root "/home/user" sample_files
              ["r1"; "r2"] ["/opt/r1/a.xml"; "/opt/r2/b.xml"] p doc E)
    as (-> & sections & -> & Hnames).
  exists sections. split; [reflexivity|exact Hnames].
Defined.

(** ** What the warnings say *)

Lemma logs_only_silent P f : logs_only P (silent f).
Proof. intros out. constructor. Qed.

Lemma logs_only_seq P e1 e2 : logs_only P e1 -> logs_only P e2 -> logs_only P (e1 >> e2).
Proof.
  intros H1 H2 out. rewrite edit_seq_eq. cbn [snd]. apply Forall_app. split; [apply H1|apply H2].
Qed.

Lemma logs_only_for_each_in {A} P (l : list A) body :
  (forall x, x ∈ l -> logs_only P (body x)) -> logs_only P (for_each l body).
Proof.
  intros H. induction l as [|x l IH]; [apply logs_only_silent|].
  simpl. apply logs_only_seq; [apply H, list_elem_of_here|].
  apply IH. intros y Hy. by apply H, list_elem_of_further.
Qed.

Lemma logs_only_for_each {A} P (l : list A) body :
  (forall x, logs_only P (body x)) -> logs_only P (for_each l body).
Proof. intros H. apply logs_only_for_each_in. intros x _. apply H. Qed.

Lemma logs_only_in_child P nm e : logs_only P e -> logs_only P (in_child nm e).
Proof. intros H out. rewrite in_child_log. apply H. Qed.

Lemma logs_only_merge_mujoco_node node fileIn in_ exclude :
  logs_only (fun d => diag_node d = node /\ diag_file d = fileIn /\
                      diag_value_in d <> diag_value_merged d)
    (merge_mujoco_node node fileIn in_ exclude).
Proof.
  intros out. unfold merge_mujoco_node. rewrite merge_attrs_log.
  eapply Forall_impl; [apply omap_conflict_attrs|].
  intros d (? & ? & _ & _ & _ & ?). done.
Qed.

Lemma logs_only_impl (P Q : diagnostic -> Prop) e :
  (forall d, P d -> Q d) -> logs_only P e -> logs_only Q e.
Proof. intros HPQ H out. eapply Forall_impl; [apply H|done]. Qed.

Lemma logs_only_section_mergers cwd robot xmlFile root block :
  block ∈ section_mergers cwd robot xmlFile root ->
  logs_only (fun d => diag_file d = xmlFile /\ diag_value_in d <> diag_value_merged d /\
                      (diag_node d = "compiler" \/ diag_node d = "option" \/
                       diag_node d = "option/flag" \/
                       (exists t, diag_node d = "default/" +:+ t) \/
                       (exists t, diag_node d = "visual/" +:+ t)))
    block.2.
Proof.
  unfold section_mergers. intros H.
  repeat (apply elem_of_cons in H as [->|H]); cbn [snd];
    try apply logs_only_silent; [| | | |by apply elem_of_nil in H].
  - eapply logs_only_impl; [|apply logs_only_merge_mujoco_node].
    intros d (Hn & Hf & Hv). split; [done|]. split; [done|]. by left.
  - apply logs_only_seq.
    + eapply logs_only_impl; [|apply logs_only_merge_mujoco_node].
      intros d (Hn & Hf & Hv). split; [done|]. split; [done|]. right. by left.
    + destruct (child_of (child root "option") "flag"); [|apply logs_only_silent].
      apply logs_only_in_child.
      eapply logs_only_impl; [|apply logs_only_merge_mujoco_node].
      intros d (Hn & Hf & Hv). split; [done|]. split; [done|]. right. right. by left.
  - apply logs_only_for_each. intros c.
    destruct (String.eqb (name c) "default"); [apply logs_only_silent|].
    apply logs_only_in_child.
    eapply logs_only_impl; [|apply logs_only_merge_mujoco_node].
    intros d (Hn & Hf & Hv). split; [done|]. split; [done|].
    right. right. right. left. by exists (name c).
  - apply logs_only_for_each. intros c. apply logs_only_in_child.
    eapply logs_only_impl; [|apply logs_only_merge_mujoco_node].
    intros d (Hn & Hf & Hv). split; [done|]. split; [done|].
    right. right. right. right. by exists (name c).
Qed.

Lemma logs_only_merge_sections cwd robot xmlFile root :
  logs_only (fun d => diag_file d = xmlFile /\ diag_value_in d <> diag_value_merged d /\
                      (diag_node d = "compiler" \/ diag_node d = "option" \/
                       diag_node d = "option/flag" \/
                       (exists t, diag_node d = "default/" +:+ t) \/
                       (exists t, diag_node d = "visual/" +:+ t)))
    (merge_sections cwd robot xmlFile root).
Proof.
  apply logs_only_for_each_in. intros b Hb%subseteq_take.
  apply logs_only_in_child.
  by apply (logs_only_section_mergers cwd robot xmlFile root).
Qed.

Lemma merge_loop_logs cwd load_file (S : list string) robots : forall xmlFiles out log,
  xmlFiles ⊆ S ->
  Forall (fun d => diag_file d ∈ S /\ conflict_warning d) log ->
  Forall (fun d => diag_file d ∈ S /\ conflict_warning d)
    (merge_loop cwd load_file robots xmlFiles out log).1.
Proof.
  induction robots as [|robot robots IH]; intros xmlFiles out log Hsub Hlog; [done|].
  destruct xmlFiles as [|f xmlFiles]; [done|]. simpl.
  destruct (root_of load_file f) as [root|] eqn:Hroot.
  - rewrite (merge_mujoco_model_loaded _ _ _ _ root) by done.
    pose proof (logs_only_merge_sections cwd robot f root out) as Hnew.
    destruct (merge_sections cwd robot f root out) as [out1 log1]. simpl in Hnew.
    apply IH.
    + intros x Hx. by apply Hsub, list_elem_of_further.
    + apply Forall_app. split; [done|].
      eapply Forall_impl; [exact Hnew|]. intros d (-> & Hv & Hn).
      split; [apply Hsub, list_elem_of_here|by split].
  - by rewrite merge_mujoco_model_failed.
Qed.

(** X19: every warning of a merge names the file that was being merged
    when it was logged, and reports two values that differ.  It can only
    come from the compiler section, the option section, its flags, or a
    child of the default or of the visual section: the size, asset,
    contact, actuator, sensor and worldbody mergers never warn. *)
Theorem X19_warnings_name_the_merged_file
    (cwd : string) (load_file : string -> option xml_node) :
  (forall robot xmlFile root out,
     Forall (fun d => diag_file d = xmlFile /\ conflict_warning d)
       (merge_sections cwd robot xmlFile root out).2) /\
  (forall robots xmlFiles,
     Forall (fun d => diag_file d ∈ xmlFiles /\ conflict_warning d)
       (diagnostics (merge_mujoco_models cwd load_file robots xmlFiles))).
Proof.
  split.
  - intros robot xmlFile root out.
    eapply Forall_impl; [apply logs_only_merge_sections|].
    intros d (? & ? & ?). by repeat split.
  - intros robots xmlFiles. unfold merge_mujoco_models.
    pose proof (merge_loop_logs cwd load_file xmlFiles robots xmlFiles new_root []) as H.
    destruct (merge_loop cwd load_file robots xmlFiles new_root []) as [log [out| |]];
      simpl in H; (destruct xmlFiles as [|f [|g l]]; [|by constructor|]); by apply H.
Qed.

(** ** Asset paths once resolved *)

(** X20: with an absolute working directory, a [file] that
    [update_file] has resolved is never resolved again, against any base
    directory: resolving twice is resolving once. *)
Theorem X20_resolved_file_is_final
    (cwd dir1 dir2 : string) (n : xml_node) :
  bfs.is_absolute cwd = true ->
  update_file cwd dir2 (update_file cwd dir1 n) = update_file cwd dir1 n.
Proof.
  intros Hcwd. unfold update_file at 2 3.
  destruct (attribute n "file") as [v|] eqn:Hv.
  - destruct (bfs.is_absolute v) eqn:Habs.
    + unfold update_file. by rewrite Hv, Habs.
    + unfold update_file. erewrite attribute_set_value_eq by done.
      by rewrite is_absolute_absolute.
  - unfold update_file. by rewrite Hv.
Qed.

Lemma X20_resolved_file_witness :
  update_file "/home/user" "/elsewhere"
    (update_file "/home/user" "/opt/r1/meshes" (Node "mesh" [("file", "link.stl")] [])) =
  Node "mesh" [("file", "/opt/r1/meshes/link.stl")] [].
Proof.
  rewrite X20_resolved_file_is_final; reflexivity.
Defined.

(** ** The working directory *)

Lemma absolute_of_absolute cwd p :
  bfs.is_absolute p = true -> bfs.absolute cwd p = p.
Proof. intros H. unfold bfs.absolute. by rewrite H. Qed.

Lemma get_mujoco_path_absolute_file cwd xmlFile root attr :
  bfs.is_absolute xmlFile = true ->
  bfs.is_absolute (get_mujoco_path cwd xmlFile root attr) = true /\
  forall cwd', get_mujoco_path cwd' xmlFile root attr = get_mujoco_path cwd xmlFile root attr.
Proof.
  intros Habs. unfold get_mujoco_path.
  pose proof (parent_path_absolute xmlFile Habs) as Hdir.
  destruct (attribute_of (child root "compiler") attr) as [d|]; [|done].
  destruct (bfs.is_absolute d) eqn:Hd; [done|].
  pose proof (is_absolute_append _ d Hdir) as Hjoin.
  split; [|intros cwd']; by rewrite !absolute_of_absolute.
Qed.

Lemma update_file_absolute_dir cwd cwd' dir n :
  bfs.is_absolute dir = true -> update_file cwd dir n = update_file cwd' dir n.
Proof.
  intros Hdir. unfold update_file.
  destruct (attribute n "file") as [v|]; [|done].
  destruct (bfs.is_absolute v); [done|].
  by rewrite !absolute_of_absolute by by apply is_absolute_append.
Qed.

Lemma foldl_append_copy_ext {A} (f g : A -> xml_node) l :
  (forall x, f x = g x) ->
  forall out, foldl (fun out x => append_copy out (f x)) out l =
              foldl (fun out x => append_copy out (g x)) out l.
Proof.
  intros H. induction l as [|x l IH]; intros out; [done|]. simpl. by rewrite H, IH.
Qed.

Lemma merge_mujoco_asset_absolute_dirs cwd cwd' in_ meshPath texturePath robot out :
  bfs.is_absolute meshPath = true -> bfs.is_absolute texturePath = true ->
  merge_mujoco_asset cwd in_ meshPath texturePath robot out =
  merge_mujoco_asset cwd' in_ meshPath texturePath robot out.
Proof.
  intros Hm Ht. unfold merge_mujoco_asset, copy_assets.
  rewrite (foldl_append_copy_ext
             (fun s => prefix_bones robot (update_file cwd meshPath (update_name robot s)))
             (fun s => prefix_bones robot (update_file cwd' meshPath (update_name robot s))))
    by (intros s; by rewrite (update_file_absolute_dir cwd cwd')).
  rewrite (foldl_append_copy_ext
             (fun n => update_file cwd texturePath (update_name robot n))
             (fun n => update_file cwd' texturePath (update_name robot n)))
    by (intros n; by apply update_file_absolute_dir).
  by rewrite (foldl_append_copy_ext
                (fun n => update_file cwd meshPath (update_name robot n))
                (fun n => update_file cwd' meshPath (update_name robot n)))
    by (intros n; by apply update_file_absolute_dir).
Qed.

Lemma in_child_ext nm (e e' : edit) out :
  (forall n, e n = e' n) -> in_child nm e out = in_child nm e' out.
Proof.
  intros H. unfold in_child. destruct (get_child_or_create out nm) as [out1 h].
  unfold at_child. destruct (children out1 !! h) as [c|]; [|done]. by rewrite H.
Qed.

Lemma run_blocks_ext bs bs' :
  Forall2 (fun b b' : string * edit => b.1 = b'.1 /\ forall n, b.2 n = b'.2 n) bs bs' ->
  forall out, run_blocks bs out = run_blocks bs' out.
Proof.
  unfold run_blocks. induction 1 as [|b b' bs bs' [Htag He] _ IH]; intros out; [done|].
  rewrite !for_each_cons, Htag, (in_child_ext _ b.2 b'.2) by done.
  by rewrite !IH.
Qed.

Lemma merge_sections_absolute_file cwd cwd' robot xmlFile root out :
  bfs.is_absolute xmlFile = true ->
  merge_sections cwd robot xmlFile root out = merge_sections cwd' robot xmlFile root out.
Proof.
  intros Habs. unfold merge_sections, merge_blocks.
  apply run_blocks_ext. unfold section_mergers. cbn [take].
  repeat (constructor; [split; [reflexivity|intros n; try reflexivity]|]); [|constructor].
  cbn [snd]. unfold silent.
  destruct (get_mujoco_path_absolute_file cwd xmlFile root "meshdir" Habs) as [Hm Hm'].
  destruct (get_mujoco_path_absolute_file cwd xmlFile root "texturedir" Habs) as [Ht Ht'].
  rewrite (Hm' cwd'), (Ht' cwd').
  by rewrite (merge_mujoco_asset_absolute_dirs cwd cwd').
Qed.

(** X21: when every source file is given by an absolute path, the result
    of the merge (document, warnings and return value) does not depend on
    the working directory of the process. *)
Theorem X21_absolute_files_ignore_working_directory
    (cwd cwd' : string) (load_file : string -> option xml_node)
    (robots xmlFiles : list string) :
  Forall (fun f => bfs.is_absolute f = true) xmlFiles ->
  merge_mujoco_models cwd load_file robots xmlFiles =
  merge_mujoco_models cwd' load_file robots xmlFiles.
Proof.
  intros Habs. unfold merge_mujoco_models.
  assert (forall out log,
            merge_loop cwd load_file robots xmlFiles out log =
            merge_loop cwd' load_file robots xmlFiles out log) as ->; [|done].
  revert xmlFiles Habs.
  induction robots as [|robot robots IH]; intros xmlFiles Habs out log; [done|].
  destruct xmlFiles as [|f xmlFiles]; [done|].
  apply Forall_cons in Habs as [Hf Habs]. simpl.
  unfold merge_mujoco_model.
  destruct (load_file f) as [doc|]; [|done].
  destruct (child doc "mujoco") as [root|]; [|done].
  rewrite (merge_sections_absolute_file cwd cwd') by done.
  destruct (merge_sections cwd' robot f root out) as [out1 log1]. by apply IH.
Qed.

Lemma X21_absolute_files_witness :
  merge_mujoco_models "/home/user" sample_files ["r1"; "r2"] ["/opt/r1/a.xml"; "/opt/r2/b.xml"] =
  merge_mujoco_models "/var/run" sample_files ["r1"; "r2"] ["/opt/r1/a.xml"; "/opt/r2/b.xml"].
Proof.
  apply X21_absolute_files_ignore_working_directory. by repeat constructor.
Defined.

(** ** What earlier entities contributed stays *)

Lemma section_of_merge_sections cwd robot xmlFile root out nm e :
  (nm, e) ∈ section_mergers cwd robot xmlFile root ->
  section_of (merge_sections cwd robot xmlFile root out).1 nm = (e (section_of out nm)).1.
Proof.
  intros Hin. unfold section_of at 1. by rewrite (merge_sections_child _ _ _ _ _ nm e).
Qed.

Lemma merge_sections_grows cwd robot xmlFile root out sec :
  sec ∈ copy_sections ->
  children (section_of out sec) `prefix_of`
    children (section_of (merge_sections cwd robot xmlFile root out).1 sec) /\
  attributes (section_of (merge_sections cwd robot xmlFile root out).1 sec) =
    attributes (section_of out sec).
Proof.
  intros Hsec%list_elem_of_In. simpl in Hsec.
  destruct Hsec as [<-|[<-|[<-|[<-|[<-|[]]]]]].
  - rewrite (section_of_merge_sections _ _ _ _ _ "asset"
               (silent (merge_mujoco_asset cwd (child root "asset")
                          (get_mujoco_path cwd xmlFile root "meshdir")
                          (get_mujoco_path cwd xmlFile root "texturedir") robot)))
      by (apply list_elem_of_In; simpl; tauto).
    cbn [silent fst]. split.
    + rewrite merge_mujoco_asset_children. by eexists.
    + unfold merge_mujoco_asset, copy_assets. by rewrite !attributes_foldl_append_copy.
  - rewrite (section_of_merge_sections _ _ _ _ _ "contact"
               (silent (merge_mujoco_contact (child root "contact") robot)))
      by (apply list_elem_of_In; simpl; tauto).
    cbn [silent fst]. unfold merge_mujoco_contact, copy_and_add_prefix. split.
    + rewrite !children_foldl_append_copy, <- app_assoc. by eexists.
    + by rewrite !attributes_foldl_append_copy.
  - rewrite (section_of_merge_sections _ _ _ _ _ "actuator"
               (silent (merge_mujoco_actuator (child root "actuator") robot)))
      by (apply list_elem_of_In; simpl; tauto).
    cbn [silent fst]. unfold merge_mujoco_actuator. split.
    + rewrite children_foldl_append_copy. by eexists.
    + by rewrite attributes_foldl_append_copy.
  - rewrite (section_of_merge_sections _ _ _ _ _ "sensor"
               (silent (merge_mujoco_sensor (child root "sensor") robot)))
      by (apply list_elem_of_In; simpl; tauto).
    cbn [silent fst]. unfold merge_mujoco_sensor. split.
    + rewrite children_foldl_append_copy. by eexists.
    + by rewrite attributes_foldl_append_copy.
  - rewrite (section_of_merge_sections _ _ _ _ _ "worldbody"
               (silent (merge_mujoco_worldbody (child root "worldbody") robot)))
      by (apply list_elem_of_In; simpl; tauto).
    cbn [silent fst]. unfold merge_mujoco_worldbody. split.
    + rewrite children_foldl_append_copy. by eexists.
    + by rewrite attributes_foldl_append_copy.
Qed.

(** X22: the asset, contact, actuator, sensor and worldbody sections
    only grow.  However many further entities the loop merges, the
    children such a section had are still its first children, unchanged
    and in the same order, and the section has the attributes it had:
    nothing an earlier entity contributed is modified or removed by a
    later one. *)
Theorem X22_copy_sections_only_grow
    (cwd : string) (load_file : string -> option xml_node)
    (robots xmlFiles : list string) (out out' : xml_node)
    (log log' : list diagnostic) (sec : string) :
  merge_loop cwd load_file robots xmlFiles out log = (log', Ok out') ->
  sec ∈ copy_sections ->
  children (section_of out sec) `prefix_of` children (section_of out' sec) /\
  attributes (section_of out' sec) = attributes (section_of out sec).
Proof.
  intros Hloop Hsec. revert Hloop.
  apply (merge_loop_invariant cwd load_file
           (fun o => children (section_of out sec) `prefix_of` children (section_of o sec) /\
                     attributes (section_of o sec) = attributes (section_of out sec))).
  - intros robot xmlFile root o _ [Hpre Hattrs].
    destruct (merge_sections_grows cwd robot xmlFile root o sec Hsec) as [Hpre' Hattrs'].
    split; [by etrans|congruence].
  - done.
Qed.

Lemma X22_copy_sections_witness :
  match merge_loop "/home/user" sample_files ["r2"; "r1"] ["/opt/r2/b.xml"; "/opt/r1/a.xml"]
          (Node "mujoco" [] [Node "worldbody" [] [Node "body" [("name", "floor")] []]]) [] with
  | (_, Ok out') =>
      [Node "body" [("name", "floor")] []] `prefix_of` children (section_of out' "worldbody")
  | _ => False
  end.
Proof.
  destruct (merge_loop "/home/user" sample_files ["r2"; "r1"] ["/opt/r2/b.xml"; "/opt/r1/a.xml"]
              (Node "mujoco" [] [Node "worldbody" [] [Node "body" [("name", "floor")] []]]) [])
    as [log' [out'| |]] eqn:E.
  - assert ("worldbody" ∈ copy_sections) as Hsec by (apply list_elem_of_In; simpl; tauto).
    apply (X22_copy_sections_only_grow _ _ _ _ _ _ _ _ _ E Hsec).
  - vm_compute in E. discriminate E.
  - vm_compute in E. discriminate E.
Defined.

(** ** What is read of a source document *)

(** X23: of a source document only the first child of each of the ten
    section tags is read.  Two source roots that agree on those ten
    children give the same merge, whatever else they hold: the attributes
    of the root, a second section with a tag already seen, and sections
    such as [equality], [tendon] or [keyframe] are ignored. *)
Theorem X23_only_the_first_ten_sections_are_read
    (cwd robot xmlFile : string) (root root' out : xml_node) :
  Forall (fun tag => child root tag = child root' tag) section_tags ->
  merge_sections cwd robot xmlFile root out = merge_sections cwd robot xmlFile root' out.
Proof.
  intros H. unfold section_tags in H.
  repeat (apply Forall_cons in H as [? H]).
  unfold merge_sections, merge_blocks, section_mergers, get_mujoco_path.
  repeat match goal with
         | Heq : child root _ = child root' _ |- _ => rewrite Heq; clear Heq
         end.
  reflexivity.
Qed.

Lemma X23_only_the_first_ten_sections_witness :
  merge_sections "/home/user" "r2" "/opt/r2/b.xml"
    (Node "mujoco" [("model", "b")]
       [Node "size" [("njmax", "5")] [];
        Node "option" [("timestep", "0.002")] [];
        Node "keyframe" [] [Node "key" [("name", "home")] []];
        Node "size" [("njmax", "100")] []])
    new_root =
  merge_sections "/home/user" "r2" "/opt/r2/b.xml"
    (Node "mujoco" []
       [Node "size" [("njmax", "5")] [];
        Node "option" [("timestep", "0.002")] []])
    new_root.
Proof.
  apply X23_only_the_first_ten_sections_are_read.
  repeat constructor.
Defined.

(** ** The total of a counter *)

Lemma counter_value_accumulate s v :
  0 <= counter_value s -> 0 <= counter_value v ->
  counter_value s + counter_value v <= pugi.INT_MAX ->
  counter_value (accumulate s v) = counter_value s + counter_value v.
Proof.
  unfold pugi.INT_MAX. intros Hs Hv Hsum.
  destruct v as [i|], s as [o|]; simpl in *; try lia.
  rewrite int_add_exact by (unfold pugi.INT_MIN, pugi.INT_MAX; lia).
  apply as_int_int_to_string. unfold pugi.INT_MIN, pugi.INT_MAX. lia.
Qed.

Lemma counter_value_foldl vals : forall s,
  0 <= counter_value s ->
  Forall (fun v => 0 <= counter_value v) vals ->
  counter_value s + foldr (fun v t => counter_value v + t) 0 vals <= pugi.INT_MAX ->
  counter_value (foldl accumulate s vals) =
  counter_value s + foldr (fun v t => counter_value v + t) 0 vals.
Proof.
  induction vals as [|v vals IH]; intros s Hs Hall Hsum; simpl in *; [lia|].
  apply Forall_cons in Hall as [Hv Hall].
  assert (0 <= foldr (fun v t => counter_value v + t) 0 vals) as Hrest.
  { clear -Hall. induction Hall; simpl; lia. }
  rewrite IH; rewrite ?counter_value_accumulate; try done; lia.
Qed.

Lemma declared_total_fmap load_file c files :
  foldr (fun v t => counter_value v + t) 0 (declared load_file "size" c <$> files) =
  declared_total load_file c files.
Proof.
  induction files as [|f files IH]; [done|].
  unfold declared_total. simpl. f_equal. exact IH.
Qed.

(** X24: in a written document a size counter reads as the total of what
    the merged entities declared for it, whenever the declared values
    read as non-negative integers and their total fits an [int]; an
    entity that does not declare the counter counts for 0. *)
Theorem X24_counter_is_the_total
    (cwd : string) (load_file : string -> option xml_node)
    (es : list (string * string)) (p : string) (doc : xml_node) (c : string) :
  written (merge_mujoco_models cwd load_file es.*1 es.*2) = Some (p, doc) ->
  c ∈ size_attributes ->
  Forall (fun f => 0 <= counter_value (declared load_file "size" c f)) es.*2 ->
  declared_total load_file c es.*2 <= pugi.INT_MAX ->
  counter_value (merged_attribute doc "size" c) = declared_total load_file c es.*2.
Proof.
  intros (_ & log & out & Hloop & _ & -> & Hname)%written_inv Hc Hpos Hsum.
  rewrite merged_attribute_root by done.
  apply (merge_loop_size cwd load_file c) in Hloop as [_ ->]; [|done].
  change (section_attribute new_root "size" c) with (@None string).
  rewrite counter_value_foldl; rewrite ?declared_total_fmap; simpl; try done.
  by apply Forall_fmap.
Qed.

Lemma X24_counter_is_the_total_witness :
  match written (merge_mujoco_models "/home/user" sample_files
                   ["r1"; "r2"] ["/opt/r1/a.xml"; "/opt/r2/b.xml"]) with
  | Some (_, doc) => counter_value (merged_attribute doc "size" "njmax") = 15
  | None => False
  end.
Proof.
  destruct (written (merge_mujoco_models "/home/user" sample_files
                       ["r1"; "r2"] ["/opt/r1/a.xml"; "/opt/r2/b.xml"]))
    as [[p doc]|] eqn:E; [|vm_compute in E; discriminate E].
  rewrite (X24_counter_is_the_total "/home/user" sample_files
             [("r1", "/opt/r1/a.xml"); ("r2", "/opt/r2/b.xml")] p doc "njmax" E).
  - reflexivity.
  - apply list_elem_of_In. simpl. tauto.
  - repeat constructor; by vm_compute.
  - by vm_compute.
Defined.

(** ** A source without sections *)

Lemma in_child_noop nm (e : edit) out :
  (forall n, e n = (n, [])) -> nm ∈ map name (children out) ->
  in_child nm e out = (out, []).
Proof.
  intros He Hin.
  destruct (find_child nm (children out)) as [[i c]|] eqn:E.
  - rewrite (in_child_found nm e out i c E), He. cbn [fst snd].
    apply find_child_Some in E as [Hi _].
    rewrite list_insert_id by done. by destruct out.
  - by apply find_child_None in E.
Qed.

Lemma run_blocks_noop bs out :
  Forall (fun b : string * edit => forall n, b.2 n = (n, [])) bs ->
  bs.*1 ⊆ map name (children out) ->
  run_blocks bs out = (out, []).
Proof.
  unfold run_blocks. induction 1 as [|b bs Hb _ IH]; intros Hsub; [done|].
  rewrite for_each_cons, in_child_noop; [|done|apply Hsub, list_elem_of_here].
  cbn [fst snd]. rewrite IH; [done|].
  intros x Hx. by apply Hsub, list_elem_of_further.
Qed.

(** X25: a source that has none of the ten sections behaves as one with
    ten empty sections: merging it into an output that already has its
    sections changes nothing and logs nothing. *)
Theorem X25_source_without_sections_changes_nothing
    (cwd robot xmlFile : string) (root out : xml_node) :
  Forall (fun tag => child root tag = None) section_tags ->
  section_tags ⊆ map name (children out) ->
  merge_sections cwd robot xmlFile root out = (out, []).
Proof.
  intros H Hsub. unfold section_tags in H.
  repeat (apply Forall_cons in H as [? H]).
  unfold merge_sections, merge_blocks, section_mergers, get_mujoco_path.
  repeat match goal with
         | Heq : child root _ = None |- _ => rewrite Heq; clear Heq
         end.
  apply run_blocks_noop; [|done].
  cbn [take]. repeat (constructor; [intros n; reflexivity|]). constructor.
Qed.

Lemma X25_source_without_sections_witness :
  merge_sections "/home/user" "r3" "/opt/r3/c.xml"
    (Node "mujoco" [("model", "c")] [Node "keyframe" [] []])
    (Node "mujoco" [("model", "mc_mujoco")]
       [Node "compiler" [("angle", "radian")] []; Node "size" [] []; Node "option" [] [];
        Node "default" [] []; Node "visual" [] []; Node "asset" [] []; Node "contact" [] [];
        Node "actuator" [] []; Node "sensor" [] []; Node "worldbody" [] []]) =
  (Node "mujoco" [("model", "mc_mujoco")]
     [Node "compiler" [("angle", "radian")] []; Node "size" [] []; Node "option" [] [];
      Node "default" [] []; Node "visual" [] []; Node "asset" [] []; Node "contact" [] [];
      Node "actuator" [] []; Node "sensor" [] []; Node "worldbody" [] []], []).
Proof.
  apply X25_source_without_sections_changes_nothing.
  - repeat constructor.
  - intros tag Htag. exact Htag.
Defined.

(** * The order of the entities *)

Lemma foldl_first_wins (s : option string) l :
  foldl first_wins s l = first_wins s (foldl first_wins None l).
Proof.
  revert s. induction l as [|x l IH]; intros s; simpl.
  - by destruct s.
  - rewrite (IH (first_wins s x)), (IH x). by destruct s, x.
Qed.

Lemma foldl_first_wins_first (before after : list (option string)) v :
  Forall (fun x => x = None) before ->
  foldl first_wins None (before ++ Some v :: after) = Some v.
Proof.
  induction 1 as [|x before -> _ IH]; simpl; [|done].
  rewrite foldl_first_wins. done.
Qed.

Lemma merge_mujoco_option_flag fileIn in_ out a :
  section_attribute (merge_mujoco_option fileIn in_ out).1 "flag" a =
  first_wins (section_attribute out "flag" a) (attribute_of (child_of in_ "flag") a).
Proof.
  unfold merge_mujoco_option. rewrite edit_seq_eq. cbn [fst].
  set (out1 := (merge_mujoco_node "option" fileIn in_ [] out).1).
  assert (forall t, child out1 t = child out t) as Hchild.
  { intros t. unfold child, out1. by rewrite children_merge_mujoco_node. }
  destruct (child_of in_ "flag") as [flag|]; cbn [fst silent id].
  - unfold section_attribute at 1.
    rewrite in_child_same by apply keeps_name_merge_mujoco_node.
    change (attribute (merge_mujoco_node "option/flag" fileIn (Some flag) []
                         (section_of out1 "flag")).1 a =
            first_wins (section_attribute out "flag" a) (attribute flag a)).
    rewrite merge_mujoco_node_first_wins by apply not_elem_of_nil.
    unfold section_of, section_attribute. rewrite Hchild.
    by destruct (child out "flag").
  - unfold section_attribute. rewrite Hchild.
    by destruct (attribute_of (child out "flag") a).
Qed.

Lemma merge_mujoco_visual_leaf fileIn in_ out t a :
  section_attribute (merge_mujoco_visual fileIn in_ out).1 t a =
  first_wins (section_attribute out t a)
    (foldl first_wins None ((fun c => attribute c a) <$> children_named_of in_ t)).
Proof.
  rewrite <- foldl_first_wins. unfold merge_mujoco_visual.
  assert (children_named_of in_ t = filter (fun c => name c = t) (children_of in_)) as ->
    by by destruct in_.
  apply leaf_merge_attribute.
  - intros c o <-. apply in_child_merge_same.
  - intros c o Hne. by apply in_child_merge_other.
Qed.

Lemma merge_mujoco_default_leaf fileIn in_ robot out t a :
  t <> "default" ->
  section_attribute (merge_mujoco_default fileIn in_ robot out).1 t a =
  first_wins (section_attribute out t a)
    (foldl first_wins None ((fun c => attribute c a) <$> children_named_of in_ t)).
Proof.
  intros Ht. rewrite <- foldl_first_wins. unfold merge_mujoco_default.
  assert (children_named_of in_ t = filter (fun c => name c = t) (children_of in_)) as ->
    by by destruct in_.
  apply leaf_merge_attribute.
  - intros c o <-. destruct (String.eqb_spec (name c) "default"); [done|].
    apply in_child_merge_same.
  - intros c o Hne. destruct (String.eqb_spec (name c) "default") as [Hc|Hc].
    + unfold silent, section_attribute. cbn [fst].
      rewrite child_append_copy_other; [done|].
      destruct c. simpl in *. congruence.
    + by apply in_child_merge_other.
Qed.

Lemma section_attribute_section_of out sec t a :
  section_attribute (section_of out sec) t a = attribute_of (child_of (child out sec) t) a.
Proof. unfold section_of. by destruct (child out sec). Qed.

Section FirstWins.

Variable cwd : string.
Variable load_file : string -> option xml_node.

Lemma merge_sections_first_wins robot xmlFile root out p :
  merged_place p ->
  merged_at (merge_sections cwd robot xmlFile root out).1 p =
  first_wins (merged_at out p) (declared_at root p).
Proof.
  intros Hp. destruct p as [a|a|a|t a|t a]; cbn [merged_at declared_at].
  - destruct Hp as [Hm Ht]. unfold section_attribute at 1.
    rewrite (merge_sections_child _ _ _ _ _ "compiler"
               (merge_mujoco_compiler xmlFile (child root "compiler")))
      by (apply list_elem_of_In; simpl; tauto).
    change (attribute
              (merge_mujoco_node "compiler" xmlFile (child root "compiler")
                 ["meshdir"; "texturedir"] (section_of out "compiler")).1 a =
            first_wins (section_attribute out "compiler" a)
              (section_attribute root "compiler" a)).
    rewrite merge_mujoco_node_first_wins, attribute_section_of; [done|].
    intros Ha%list_elem_of_In. simpl in Ha. by destruct Ha as [<-|[<-|[]]].
  - apply (merge_sections_option cwd load_file).
  - rewrite (merge_sections_child _ _ _ _ _ "option"
               (merge_mujoco_option xmlFile (child root "option")))
      by (apply list_elem_of_In; simpl; tauto).
    change (section_attribute
              (merge_mujoco_option xmlFile (child root "option")
                 (section_of out "option")).1 "flag" a =
            first_wins (attribute_of (child_of (child out "option") "flag") a)
              (attribute_of (child_of (child root "option") "flag") a)).
    by rewrite merge_mujoco_option_flag, section_attribute_section_of.
  - rewrite (merge_sections_child _ _ _ _ _ "default"
               (merge_mujoco_default xmlFile (child root "default") robot))
      by (apply list_elem_of_In; simpl; tauto).
    change (section_attribute
              (merge_mujoco_default xmlFile (child root "default") robot
                 (section_of out "default")).1 t a =
            first_wins (attribute_of (child_of (child out "default") t) a)
              (foldl first_wins None
                 ((fun c => attribute c a) <$> children_named_of (child root "default") t))).
    by rewrite merge_mujoco_default_leaf, section_attribute_section_of.
  - rewrite (merge_sections_child _ _ _ _ _ "visual"
               (merge_mujoco_visual xmlFile (child root "visual")))
      by (apply list_elem_of_In; simpl; tauto).
    change (section_attribute
              (merge_mujoco_visual xmlFile (child root "visual")
                 (section_of out "visual")).1 t a =
            first_wins (attribute_of (child_of (child out "visual") t) a)
              (foldl first_wins None
                 ((fun c => attribute c a) <$> children_named_of (child root "visual") t))).
    by rewrite merge_mujoco_visual_leaf, section_attribute_section_of.
Qed.

Lemma merge_loop_first_wins p es : forall out log log' out',
  merged_place p ->
  merge_loop cwd load_file es.*1 es.*2 out log = (log', Ok out') ->
  merged_at out' p =
  foldl first_wins (merged_at out p) (declared_in load_file p <$> es.*2).
Proof.
  induction es as [|[robot xmlFile] es IH]; intros out log log' out' Hp; simpl.
  - by intros [= _ <-].
  - destruct (root_of load_file xmlFile) as [root|] eqn:Hroot.
    + rewrite (merge_mujoco_model_loaded _ _ _ _ root) by done.
      destruct (merge_sections cwd robot xmlFile root out) as [out1 log1] eqn:E.
      intros Hloop. apply IH in Hloop as ->; [|done].
      f_equal. change out1 with (out1, log1).1. rewrite <- E.
      rewrite merge_sections_first_wins by done.
      unfold declared_in. by rewrite Hroot.
    + by rewrite merge_mujoco_model_failed.
Qed.

Lemma written_first_wins p es doc :
  merged_place p ->
  written (merge_mujoco_models cwd load_file es.*1 es.*2) = Some (outFile, doc) ->
  written_at doc p = foldl first_wins None (declared_in load_file p <$> es.*2).
Proof.
  intros Hp (_ & log & out & Hloop & _ & -> & Hname)%written_inv.
  unfold written_at, child. simpl. rewrite Hname. simpl.
  rewrite (merge_loop_first_wins p es new_root [] log out Hp Hloop).
  by destruct p.
Qed.

End FirstWins.

(** C9: when two lists of entities are permutations of each other and
    merging the first writes a document, merging the second writes one
    too, and every size counter has the same value in both.  An attribute
    merged under the first-wins rule (of the compiler section apart from
    the two directories, of the option section, of its flags, of a child
    of the default section that is no nested block, of a child of the
    visual section) holds in the written document, for every list of
    entities, the value of the first entity of the list that declares it.
    So of two permuted lists each gives the value of its own first
    declaring entity, and placing before it an entity that declares
    another value changes the merged value. *)
Theorem C9_order_matters_for_conflicts_only
    (cwd : string) (load_file : string -> option xml_node) :
  (forall (es1 es2 : list (string * string)) (doc1 : xml_node),
     es1 ≡ₚ es2 ->
     written (merge_mujoco_models cwd load_file es1.*1 es1.*2) = Some (outFile, doc1) ->
     exists doc2,
       written (merge_mujoco_models cwd load_file es2.*1 es2.*2) = Some (outFile, doc2) /\
       forall c, c ∈ size_attributes ->
                 merged_attribute doc1 "size" c = merged_attribute doc2 "size" c) /\
  (forall (es : list (string * string)) (doc : xml_node) (p : first_wins_place),
     merged_place p ->
     written (merge_mujoco_models cwd load_file es.*1 es.*2) = Some (outFile, doc) ->
     written_at doc p = foldl first_wins None (declared_in load_file p <$> es.*2) /\
     forall before first after v,
       es = before ++ first :: after ->
       Forall (fun e : string * string => declared_in load_file p e.2 = None) before ->
       declared_in load_file p first.2 = Some v ->
       written_at doc p = Some v) /\
  (forall (es1 es2 : list (string * string)) (doc1 doc2 : xml_node)
          (p : first_wins_place) before1 first1 after1 before2 first2 after2 v1 v2,
     es1 ≡ₚ es2 ->
     merged_place p ->
     written (merge_mujoco_models cwd load_file es1.*1 es1.*2) = Some (outFile, doc1) ->
     written (merge_mujoco_models cwd load_file es2.*1 es2.*2) = Some (outFile, doc2) ->
     es1 = before1 ++ first1 :: after1 ->
     es2 = before2 ++ first2 :: after2 ->
     Forall (fun e : string * string => declared_in load_file p e.2 = None) before1 ->
     Forall (fun e : string * string => declared_in load_file p e.2 = None) before2 ->
     declared_in load_file p first1.2 = Some v1 ->
     declared_in load_file p first2.2 = Some v2 ->
     written_at doc1 p = Some v1 /\ written_at doc2 p = Some v2 /\
     (v1 <> v2 -> written_at doc1 p <> written_at doc2 p)).
Proof.
  assert (forall (es : list (string * string)) doc p before first after v,
            merged_place p ->
            written (merge_mujoco_models cwd load_file es.*1 es.*2) = Some (outFile, doc) ->
            es = before ++ first :: after ->
            Forall (fun e : string * string => declared_in load_file p e.2 = None) before ->
            declared_in load_file p first.2 = Some v ->
            written_at doc p = Some v) as Hfirst.
  { intros es doc p before first after v Hp Hw -> Hnone Hv.
    rewrite (written_first_wins cwd load_file p _ doc Hp Hw).
    rewrite !fmap_app, !fmap_cons, Hv.
    apply foldl_first_wins_first.
    apply Forall_fmap, Forall_fmap. eapply Forall_impl; [exact Hnone|]. done. }
  split; [|split].
  - intros es1 es2 doc1 Hperm Hw.
    apply written_inv in Hw as (Hlen & log1 & out1 & Hloop1 & _ & -> & Hname1).
    assert (Forall (fun e : string * string => is_Some (root_of load_file e.2)) es1) as Hall.
    { assert ("njmax" ∈ size_attributes) as Hin by (apply list_elem_of_In; simpl; tauto).
      by apply (merge_loop_size cwd load_file "njmax") in Hloop1 as [? _]. }
    rewrite Hperm in Hall.
    destruct (merge_loop_succeeds cwd load_file es2 new_root [] Hall) as (log2 & out2 & Hloop2).
    exists (Node "" [] [out2]). split.
    + apply (written_intro _ _ _ _ log2); [|done].
      rewrite length_fmap in *. by rewrite <- Hperm.
    + intros c Hc.
      pose proof (merge_loop_name _ _ _ _ _ _ _ _ Hloop2) as Hname2.
      rewrite !merged_attribute_root by done.
      apply (merge_loop_size cwd load_file c) in Hloop1 as [_ ->]; [|done].
      apply (merge_loop_size cwd load_file c) in Hloop2 as [_ ->]; [|done].
      apply foldl_accumulate_perm. by rewrite Hperm.
  - intros es doc p Hp Hw. split; [by apply (written_first_wins cwd)|].
    intros before first after v. by apply Hfirst.
  - intros es1 es2 doc1 doc2 p before1 first1 after1 before2 first2 after2 v1 v2
      _ Hp Hw1 Hw2 He1 He2 Hn1 Hn2 Hv1 Hv2.
    rewrite (Hfirst es1 doc1 p before1 first1 after1 v1) by done.
    rewrite (Hfirst es2 doc2 p before2 first2 after2 v2) by done.
    repeat split. congruence.
Qed.

Lemma C9_order_witness :
  match written (merge_mujoco_models "/home/user" sample_files
                   ["r1"; "r2"] ["/opt/r1/a.xml"; "/opt/r2/b.xml"]) with
  | Some (_, doc1) =>
      exists doc2,
        written (merge_mujoco_models "/home/user" sample_files
                   ["r2"; "r1"] ["/opt/r2/b.xml"; "/opt/r1/a.xml"]) = Some (outFile, doc2) /\
        merged_attribute doc1 "size" "njmax" = Some "15" /\
        merged_attribute doc2 "size" "njmax" = Some "15" /\
        written_at doc1 (OptionAttr "timestep") = Some "0.001" /\
        written_at doc2 (OptionAttr "timestep") = Some "0.002" /\
        written_at doc1 (OptionAttr "timestep") <> written_at doc2 (OptionAttr "timestep")
  | None => False
  end.
Proof.
  destruct (C9_order_matters_for_conflicts_only "/home/user" sample_files)
    as (Hperm & _ & Horder).
  destruct (written (merge_mujoco_models "/home/user" sample_files
                       ["r1"; "r2"] ["/opt/r1/a.xml"; "/opt/r2/b.xml"]))
    as [[p doc1]|] eqn:E; [|vm_compute in E; discriminate E].
  assert (p = outFile) as -> by (vm_compute in E; by injection E as <- _).
  destruct (Hperm [("r1", "/opt/r1/a.xml"); ("r2", "/opt/r2/b.xml")]
              [("r2", "/opt/r2/b.xml"); ("r1", "/opt/r1/a.xml")] doc1
              (perm_swap _ _ _) E) as (doc2 & Hw2 & Hsame).
  destruct (Horder [("r1", "/opt/r1/a.xml"); ("r2", "/opt/r2/b.xml")]
              [("r2", "/opt/r2/b.xml"); ("r1", "/opt/r1/a.xml")] doc1 doc2
              (OptionAttr "timestep")
              [] ("r1", "/opt/r1/a.xml") [("r2", "/opt/r2/b.xml")]
              [] ("r2", "/opt/r2/b.xml") [("r1", "/opt/r1/a.xml")]
              "0.001" "0.002")
    as (Hv1 & Hv2 & Hdiff);
    [apply perm_swap|exact I|exact E|exact Hw2|reflexivity|reflexivity
    |constructor|constructor|reflexivity|reflexivity|].
  change (written (merge_mujoco_models "/home/user" sample_files
                     ["r2"; "r1"] ["/opt/r2/b.xml"; "/opt/r1/a.xml"]) = Some (outFile, doc2))
    in Hw2.
  exists doc2. split; [exact Hw2|].
  assert ("njmax" ∈ size_attributes) as Hin by (apply list_elem_of_In; simpl; tauto).
  rewrite <- (Hsame "njmax" Hin).
  assert (merged_attribute doc1 "size" "njmax" = Some "15") as ->.
  { vm_compute in E. injection E as <-. reflexivity. }
  split; [reflexivity|]. split; [reflexivity|]. split; [exact Hv1|].
  split; [exact Hv2|]. apply Hdiff. discriminate.
Defined.
